(** * Loyalty rewards service (src/app.ts): points award and status upgrade

    A shallow embedding of the Express application in [src/app.ts].

    - JavaScript [number]s are IEEE-754 binary64 values.  They are modelled
      by the Standard Library's executable specification [spec_float] at
      precision 53 and maximal exponent 1024, with round-to-nearest-even
      arithmetic ([SFdiv], [SFmul], [SFadd], [SFcompare]).
    - [Customer["status"]] is a string at run time; the status is kept as a
      [string], and the property read [STATUS_MULTIPLIER[status]] follows
      the prototype chain of an object literal.
    - [new Date().toISOString()] is an input of the functions that read the
      clock: every reading is an explicit argument.
    - The global [customers] array is threaded through the request handler
      as an explicit store. *)

From Stdlib Require Import ZArith QArith Qround Bool List String Lia.
From Stdlib Require Import SpecFloat.
Import ListNotations.

Local Open Scope Z_scope.

(** ** JavaScript numbers *)

Module Num.

Definition prec : Z := 53.
Definition emax : Z := 1024.

Definition number : Type := spec_float.

(** Well-formed doubles: canonical mantissa and exponent in range. *)
Definition wf (x : number) : Prop := valid_binary prec emax x = true.

Definition NaN : number := S754_nan.
Definition pzero : number := S754_zero false.

(** An integer literal of the source text ([10], [1000], ...). *)
Definition of_Z (n : Z) : number := binary_normalize prec emax n 0 false.

Definition div (x y : number) : number := SFdiv prec emax x y.
Definition mul (x y : number) : number := SFmul prec emax x y.
Definition add (x y : number) : number := SFadd prec emax x y.

(** [x === y], [x <= y] and [x >= y] on numbers: false as soon as one side
    is NaN; the two zeros are equal. *)
Definition strict_eq (x y : number) : bool := SFeqb x y.
Definition le (x y : number) : bool := SFleb x y.
Definition lt (x y : number) : bool := SFltb x y.
Definition ge (x y : number) : bool := SFleb y x.

(** [Number.isFinite]. *)
Definition isFinite (x : number) : bool :=
  match x with
  | S754_zero _ | S754_finite _ _ _ => true
  | S754_infinity _ | S754_nan => false
  end.

(** [Math.floor]: the largest integer not above [x]; NaN, the infinities
    and both zeros are returned as they are; [Math.floor(0.5)] is [+0]. *)
Definition floor (x : number) : number :=
  match x with
  | S754_finite s m e =>
      if 0 <=? e then x
      else
        let q := Z.shiftr (Zpos m) (- e) in
        if s then
          let k := if Z.shiftl q (- e) =? Zpos m then q else q + 1 in
          binary_normalize prec emax (- k) 0 true
        else binary_normalize prec emax q 0 false
  | _ => x
  end.

(** The exact value of a number, for the finite ones. *)
Definition to_Q (x : number) : Q :=
  match x with
  | S754_finite s m e =>
      let sm := cond_Zopp s (Zpos m) in
      match e with
      | Z0 => inject_Z sm
      | Zpos p => inject_Z (sm * Z.pow_pos 2 p)
      | Zneg p => Qmake sm (Pos.pow 2 p)
      end
  | _ => 0%Q
  end.

End Num.

(** ** Strings of the source *)

Local Open Scope string_scope.

(** ** The customer record and the store *)

Record Customer : Type := mkCustomer {
  id : Num.number;
  name : string;
  status : string;
  points : Num.number;
  lastPurchaseDate : string;
  email : option string;
  preferredStore : option string;
  joinDate : string;
  notifications : bool;
  lastStatusChange : option string
}.

Definition set_status (c : Customer) (s : string) : Customer :=
  mkCustomer (id c) (name c) s (points c) (lastPurchaseDate c) (email c)
    (preferredStore c) (joinDate c) (notifications c) (lastStatusChange c).

Definition set_lastStatusChange (c : Customer) (t : string) : Customer :=
  mkCustomer (id c) (name c) (status c) (points c) (lastPurchaseDate c)
    (email c) (preferredStore c) (joinDate c) (notifications c) (Some t).

Definition set_points (c : Customer) (p : Num.number) : Customer :=
  mkCustomer (id c) (name c) (status c) p (lastPurchaseDate c) (email c)
    (preferredStore c) (joinDate c) (notifications c) (lastStatusChange c).

Definition set_lastPurchaseDate (c : Customer) (t : string) : Customer :=
  mkCustomer (id c) (name c) (status c) (points c) t (email c)
    (preferredStore c) (joinDate c) (notifications c) (lastStatusChange c).

(** The initial contents of the [customers] array. *)
Definition customers : list Customer :=
  [ mkCustomer (Num.of_Z 1) "John Smith" "SILVER" (Num.of_Z 450)
      "2024-02-15" None (Some "Downtown") "2023-06-15" true None;
    mkCustomer (Num.of_Z 2) "Jane Doe" "GOLD" (Num.of_Z 850)
      "2024-03-01" (Some "jane.doe@email.com") None "2023-01-20" false None ].

(** ** Constants *)

(** [BASE_POINT_DIVISOR = 10]. *)
Definition BASE_POINT_DIVISOR : Num.number := Num.of_Z 10.

(** The literal [1.2]: the double nearest to 12/10. *)
Definition lit_1_2 : Num.number := Num.div (Num.of_Z 12) (Num.of_Z 10).

(** The own properties of the object literal [STATUS_MULTIPLIER]. *)
Definition STATUS_MULTIPLIER : list (string * Num.number) :=
  [ ("BRONZE", Num.of_Z 1);
    ("SILVER", Num.of_Z 1);
    ("GOLD", lit_1_2);
    ("PLATINUM", Num.of_Z 2) ].

(** What a property read on [STATUS_MULTIPLIER] can produce: a number (an
    own property), [undefined] (no such property), or a built-in function
    or object inherited from [Object.prototype]. *)
Inductive value : Type :=
  | VNumber (n : Num.number)
  | VUndefined
  | VBuiltin (property : string).

(** Property names that every object literal inherits from
    [Object.prototype]. *)
Definition Object_prototype_keys : list string :=
  [ "constructor"; "__defineGetter__"; "__defineSetter__"; "hasOwnProperty";
    "__lookupGetter__"; "__lookupSetter__"; "isPrototypeOf";
    "propertyIsEnumerable"; "toString"; "valueOf"; "__proto__";
    "toLocaleString" ].

Fixpoint own_property (o : list (string * Num.number)) (k : string)
  : option Num.number :=
  match o with
  | [] => None
  | (k', v) :: o' => if String.eqb k k' then Some v else own_property o' k
  end.

Definition mem_string (k : string) (l : list string) : bool :=
  existsb (String.eqb k) l.

(** [STATUS_MULTIPLIER[k]]: own properties first, then the prototype. *)
Definition get_property (o : list (string * Num.number)) (k : string)
  : value :=
  match own_property o k with
  | Some n => VNumber n
  | None => if mem_string k Object_prototype_keys then VBuiltin k
            else VUndefined
  end.

(** [v ?? d]: [d] replaces [undefined] only. *)
Definition nullish (v : value) (d : Num.number) : value :=
  match v with
  | VUndefined => VNumber d
  | _ => v
  end.

(** Conversion of the right operand of [*] to a number: a built-in function
    or object converts to NaN. *)
Definition ToNumber (v : value) : Num.number :=
  match v with
  | VNumber n => n
  | VUndefined => Num.NaN
  | VBuiltin _ => Num.NaN
  end.

(** ** calcPointsWithStatus (app.ts, lines 57-61) *)

Definition calcPointsWithStatus (status : string) (amount : Num.number)
  : Num.number :=
  let base := Num.floor (Num.div amount BASE_POINT_DIVISOR) in
  let mult := nullish (get_property STATUS_MULTIPLIER status) (Num.of_Z 1) in
  Num.floor (Num.mul base (ToNumber mult)).

(** ** applyStatusUpgrade (app.ts, lines 64-79)

    [now] is the value [new Date().toISOString()] has when the function
    reads the clock.  The function mutates its argument; the updated record
    is returned. *)

Definition applyStatusUpgrade (now : string) (c : Customer) : Customer :=
  if Num.ge (points c) (Num.of_Z 1000) && negb (status c =? "PLATINUM") then
    set_lastStatusChange (set_status c "PLATINUM") now
  else if Num.ge (points c) (Num.of_Z 750)
          && ((status c =? "SILVER") || (status c =? "BRONZE")) then
    set_lastStatusChange (set_status c "GOLD") now
  else if Num.ge (points c) (Num.of_Z 500) && (status c =? "BRONZE") then
    set_lastStatusChange (set_status c "SILVER") now
  else c.

(** ** POST /api/customers/:id/purchase (app.ts, lines 95-122) *)

Inductive response : Type :=
  | NotFound                       (* 404 "Customer not found" *)
  | InvalidAmount                  (* 400 "Invalid 'amount' provided..." *)
  | Ok (customer : Customer) (awardedPoints : Num.number)
       (appliedStatusMultiplier : value).

(** [customers.find((c) => c.id === customerId)]: the first match. *)
Fixpoint find (customerId : Num.number) (cs : list Customer)
  : option Customer :=
  match cs with
  | [] => None
  | c :: cs' =>
      if Num.strict_eq (id c) customerId then Some c else find customerId cs'
  end.

(** The object returned by [find] is an element of the array: mutating it
    changes the array at the position of the first match. *)
Fixpoint write_back (customerId : Num.number) (c' : Customer)
    (cs : list Customer) : list Customer :=
  match cs with
  | [] => []
  | c :: cs' =>
      if Num.strict_eq (id c) customerId then c' :: cs'
      else c :: write_back customerId c' cs'
  end.

(** The handler.  [customerId] is [parseInt(req.params.id)], [amount] is
    [Number(req.body?.amount)]; [now1] and [now2] are the two clock
    readings (line 112, and inside [applyStatusUpgrade]).  The result is
    the response and the store after the request. *)
Definition purchase (now1 now2 : string) (customerId amount : Num.number)
    (cs : list Customer) : response * list Customer :=
  match find customerId cs with
  | None => (NotFound, cs)
  | Some customer =>
      if negb (Num.isFinite amount) || Num.le amount Num.pzero then
        (InvalidAmount, cs)
      else
        let awardedPoints := calcPointsWithStatus (status customer) amount in
        let c1 :=
          set_points customer (Num.add (points customer) awardedPoints) in
        let c2 := set_lastPurchaseDate c1 now1 in
        let c3 := applyStatusUpgrade now2 c2 in
        (Ok c3 awardedPoints (get_property STATUS_MULTIPLIER (status c3)),
         write_back customerId c3 cs)
  end.

(** ** GET /api/customers/:id (app.ts, lines 84-89)

    [customerId] is [parseInt(req.params.id)].  [Some c] is the JSON reply
    with the customer, [None] the reply 404 "Customer not found".  The
    handler assigns nothing: the store after the request is the store
    before it. *)
Definition get_customer (customerId : Num.number) (cs : list Customer)
  : option Customer :=
  find customerId cs.

(** ** PATCH /api/customers/:id/preferences (app.ts, lines 127-146) *)

(** The values a parsed JSON body holds. *)
#[warnings="-register-all"]
Inductive json : Type :=
  | JNull
  | JBool (b : bool)
  | JNumber (n : Num.number)
  | JString (s : string)
  | JArray (items : list json)
  | JObject (properties : list (string * json)).

(** [req.body.k] on the parsed body, an object given by its own
    properties: [None] is [undefined].  None of the three names read by
    the handler is inherited from [Object.prototype]. *)
Fixpoint get_field (body : list (string * json)) (k : string)
  : option json :=
  match body with
  | [] => None
  | (k', v) :: body' => if String.eqb k k' then Some v else get_field body' k
  end.

Definition set_notifications (c : Customer) (b : bool) : Customer :=
  mkCustomer (id c) (name c) (status c) (points c) (lastPurchaseDate c)
    (email c) (preferredStore c) (joinDate c) b (lastStatusChange c).

Definition set_preferredStore (c : Customer) (s : string) : Customer :=
  mkCustomer (id c) (name c) (status c) (points c) (lastPurchaseDate c)
    (email c) (Some s) (joinDate c) (notifications c) (lastStatusChange c).

Definition set_email (c : Customer) (s : string) : Customer :=
  mkCustomer (id c) (name c) (status c) (points c) (lastPurchaseDate c)
    (Some s) (preferredStore c) (joinDate c) (notifications c)
    (lastStatusChange c).

(** The three guarded assignments (lines 135-143): a field is assigned
    when [typeof] of the body's value is "boolean", respectively
    "string". *)
Definition apply_preferences (body : list (string * json)) (c : Customer)
  : Customer :=
  let c1 :=
    match get_field body "notifications" with
    | Some (JBool b) => set_notifications c b
    | _ => c
    end in
  let c2 :=
    match get_field body "preferredStore" with
    | Some (JString s) => set_preferredStore c1 s
    | _ => c1
    end in
  match get_field body "email" with
  | Some (JString s) => set_email c2 s
  | _ => c2
  end.

(** The handler: the reply ([None] is 404, [Some c] the updated customer)
    and the store after the request. *)
Definition patch_preferences (customerId : Num.number)
    (body : list (string * json)) (cs : list Customer)
  : option Customer * list Customer :=
  match find customerId cs with
  | None => (None, cs)
  | Some customer =>
      let c' := apply_preferences body customer in
      (Some c', write_back customerId c' cs)
  end.

(** * The specification's functions

    The Points Calculator and the Tier Promotion Evaluator as the
    specification words them, over an enumerated tier, exact rational
    amounts and integer points.  The theorems below compare the code with
    them. *)

Inductive Tier : Type := BRONZE | SILVER | GOLD | PLATINUM.

Definition tier_name (t : Tier) : string :=
  match t with
  | BRONZE => "BRONZE"
  | SILVER => "SILVER"
  | GOLD => "GOLD"
  | PLATINUM => "PLATINUM"
  end.

(** Privilege order BRONZE < SILVER < GOLD < PLATINUM. *)
Definition tier_rank (t : Tier) : nat :=
  match t with
  | BRONZE => 0
  | SILVER => 1
  | GOLD => 2
  | PLATINUM => 3
  end.

(** Multiplier table: BRONZE = 1.0, SILVER = 1.0, GOLD = 1.2,
    PLATINUM = 2.0. *)
Definition multiplier (t : Tier) : Q :=
  match t with
  | BRONZE => 1
  | SILVER => 1
  | GOLD => 12 # 10
  | PLATINUM => 2
  end.

(** [floor (floor (amount / 10) * multiplier)], in exact arithmetic. *)
Definition calculatePoints (t : Tier) (amount : Q) : Z :=
  Qfloor (inject_Z (Qfloor (amount / 10)) * multiplier t).

Definition Tier_eqb (a b : Tier) : bool :=
  match a, b with
  | BRONZE, BRONZE | SILVER, SILVER | GOLD, GOLD | PLATINUM, PLATINUM => true
  | _, _ => false
  end.

(** The ordered promotion rules, first match wins; the boolean tells
    whether a rule fired. *)
Definition evaluatePromotion (currentTier : Tier) (cumulativePoints : Z)
  : Tier * bool :=
  if (1000 <=? cumulativePoints)%Z && negb (Tier_eqb currentTier PLATINUM)
  then (PLATINUM, true)
  else if (750 <=? cumulativePoints)%Z
          && (Tier_eqb currentTier SILVER || Tier_eqb currentTier BRONZE)
  then (GOLD, true)
  else if (500 <=? cumulativePoints)%Z && Tier_eqb currentTier BRONZE
  then (SILVER, true)
  else (currentTier, false).

(** An amount the handler rejects: not finite, zero, or negative. *)
Definition invalid_amount (amount : Num.number) : bool :=
  match amount with
  | S754_nan | S754_infinity _ => true
  | S754_zero _ => true
  | S754_finite s _ _ => s
  end.

(** * Definitions used in the proofs

    Every finite double is an integer multiple of [2 ^ -1074].  The
    lemmas below read a double as that integer (its magnitude in units
    of [2 ^ -1074]) and show that [SFmul], [SFdiv], [Math.floor] and the
    comparisons of the Standard Library's specification compute, on these
    integers, a rounding to nearest with ties to even, an integer
    division and the order of Z. *)

Local Close Scope string_scope.

(** Round-to-nearest-even of [q + f], where [c] compares the fraction [f]
    with one half. *)
Definition round_cmp (q : Z) (c : comparison) : Z :=
  match c with
  | Lt => q
  | Eq => if Z.even q then q else q + 1
  | Gt => q + 1
  end.

(** [rne N D]: the integer nearest to [N / D]. *)
Definition rne (N D : Z) : Z := round_cmp (N / D) (2 * (N mod D) ?= D).

(** Position of the remainder [r] of a division by [D], as
    [binary_round_aux] expects it. *)
Definition loc (r D : Z) : location :=
  if r =? 0 then loc_Exact else loc_Inexact (2 * r ?= D).

(** Round bit and sticky bit of a remainder [r] modulo [D]. *)
Definition rbit (r D : Z) : bool := D <=? 2 * r.
Definition sbit (r D : Z) : bool := negb (r =? 0) && negb (2 * r =? D).

(** A shift record [mrs] holds the quotient of [N] by [D] and the position
    of the remainder with respect to [D / 2]. *)
Definition holds (mrs : shr_record) (N D : Z) : Prop :=
  exists r, N = shr_m mrs * D + r /\ 0 <= r < D /\
            shr_r mrs = rbit r D /\ shr_s mrs = sbit r D.

(** Last step of [binary_round_aux]: zero, a finite double, or overflow to
    infinity above the largest exponent 971. *)
Definition finish (sx : bool) (m e : Z) : spec_float :=
  match m with
  | Z0 => S754_zero sx
  | Zpos p => if e <=? 971 then S754_finite sx p e else S754_infinity sx
  | Zneg _ => S754_nan
  end.

(** Exponent (in units of [2 ^ -1074]) of the binade of magnitude [v]. *)
Definition sexp (v : Z) : Z := Z.max (Zdigits2 v - 53) 0.

(** The double nearest to [P / Q] units. *)
Definition RN (P Q : Z) : Z :=
  let E := sexp (P / Q) in rne P (Q * 2 ^ E) * 2 ^ E.

(** The double of sign [s] and magnitude [v] units. *)
Definition of_scaled (s : bool) (v : Z) : spec_float :=
  let E := sexp v in finish s (v / 2 ^ E) (E - 1074).

(** Magnitude of a double in units of [2 ^ -1074]. *)
Definition units (x : spec_float) : Z :=
  match x with
  | S754_finite _ m e => Zpos m * 2 ^ (e + 1074)
  | _ => 0
  end.

(** [v] units is the magnitude of a finite double or of zero. *)
Definition repr (v : Z) : Prop :=
  0 <= v < 2 ^ 2098 /\ exists k, v = k * 2 ^ sexp v.

(** Non-negative finite doubles. *)
Definition nonneg (x : spec_float) : bool :=
  match x with
  | S754_zero false | S754_finite false _ _ => true
  | _ => false
  end.

(** [Math.floor] on a non-negative magnitude: the multiple of [2 ^ 1074]
    units (of 1) just below. *)
Definition ufloor (v : Z) : Z := v / 2 ^ 1074 * 2 ^ 1074.

(** [calcPointsWithStatus] on magnitudes: [u] is the multiplier and [a] the
    amount, both in units of [2 ^ -1074]. *)
Definition award (u a : Z) : Z :=
  ufloor (RN (ufloor (RN a 10) * u) (2 ^ 1074)).

(** Doubles whose value is an integer. *)
Definition integral (y : spec_float) : Prop :=
  match y with
  | S754_finite s m e => exists n, Zpos m * 2 ^ (e + 1074) = n * 2 ^ 1074
  | _ => True
  end.

(** The multiplier of a tier in units of [2 ^ -1074]. *)
Definition tier_units (t : Tier) : Z :=
  match t with
  | BRONZE | SILVER => 2 ^ 1074
  | GOLD => 5404319552844595 * 2 ^ 1022
  | PLATINUM => 2 * 2 ^ 1074
  end.

(** The rule that fires in [applyStatusUpgrade], given the outcome of the
    three threshold tests and the current status. *)
Definition upgrade_status (g1000 g750 g500 : bool) (s : string)
  : option string :=
  if g1000 && negb (s =? "PLATINUM")%string then Some "PLATINUM"%string
  else if g750 && ((s =? "SILVER")%string || (s =? "BRONZE")%string)
  then Some "GOLD"%string
  else if g500 && (s =? "BRONZE")%string then Some "SILVER"%string
  else None.

(** Apply [f] to the first customer whose id is [customerId]. *)
Fixpoint modify (customerId : Num.number) (f : Customer -> Customer)
    (cs : list Customer) : list Customer :=
  match cs with
  | [] => []
  | c :: cs' =>
      if Num.strict_eq (id c) customerId then f c :: cs'
      else c :: modify customerId f cs'
  end.

(** What a successful purchase assigns to the customer it found. *)
Definition purchase_update (now1 now2 : string) (amount : Num.number)
    (c : Customer) : Customer :=
  applyStatusUpgrade now2
    (set_lastPurchaseDate
       (set_points c
          (Num.add (points c) (calcPointsWithStatus (status c) amount)))
       now1).

(** The tier a points total qualifies for (thresholds of app.ts, line 65:
    PLATINUM >= 1000, GOLD >= 750, SILVER >= 500). *)
Definition qualified (n : Z) : Tier :=
  if (1000 <=? n)%Z then PLATINUM
  else if (750 <=? n)%Z then GOLD
  else if (500 <=? n)%Z then SILVER
  else BRONZE.

(** The higher of two tiers. *)
Definition tier_max (a b : Tier) : Tier :=
  if (tier_rank a <? tier_rank b)%nat then b else a.

(** Zero or below: [-0], a negative finite double or [-Infinity]. *)
Definition negsign (x : spec_float) : bool :=
  match x with
  | S754_zero true | S754_finite true _ _ | S754_infinity true => true
  | _ => false
  end.

(** The fields the preferences handler has no assignment for. *)
Definition loyalty_fields (c : Customer)
  : Num.number * string * string * Num.number * string * string
    * option string :=
  (id c, name c, status c, points c, lastPurchaseDate c, joinDate c,
   lastStatusChange c).

Local Open Scope string_scope.

(** * The model on concrete inputs *)

(** [Math.floor] on 2.5, 0.5, -0.5 and -2. *)
Example floor_examples :
  Num.floor (Num.div (Num.of_Z 5) (Num.of_Z 2)) = Num.of_Z 2 /\
  Num.floor (Num.div (Num.of_Z 1) (Num.of_Z 2)) = Num.pzero /\
  Num.floor (Num.div (Num.of_Z (-1)) (Num.of_Z 2)) = Num.of_Z (-1) /\
  Num.floor (Num.of_Z (-2)) = Num.of_Z (-2).
Proof. repeat split; vm_compute; reflexivity. Qed.

(** John Smith (SILVER, 450 points) buys for 300: 30 points are awarded,
    the total is 480 and the status stays SILVER; a further purchase of
    500 awards 50 points, and at 530 points the status is still SILVER. *)
Example purchase_silver_scenario :
  let t1 := "2024-05-01T10:00:00.000Z" in
  let t2 := "2024-05-01T10:00:00.001Z" in
  let r1 := purchase t1 t2 (Num.of_Z 1) (Num.of_Z 300) customers in
  let r2 := purchase t1 t2 (Num.of_Z 1) (Num.of_Z 500) (snd r1) in
  (exists c, fst r1 = Ok c (Num.of_Z 30) (VNumber (Num.of_Z 1)) /\
             points c = Num.of_Z 480 /\ status c = "SILVER" /\
             lastStatusChange c = None) /\
  (exists c, fst r2 = Ok c (Num.of_Z 50) (VNumber (Num.of_Z 1)) /\
             points c = Num.of_Z 530 /\ status c = "SILVER" /\
             lastStatusChange c = None).
Proof.
  split; eexists; (split; [vm_compute; reflexivity|]);
    repeat split; reflexivity.
Qed.

(** Jane Doe (GOLD, 850 points) buys for 1500: floor(150 * 1.2) = 180
    points are awarded with the GOLD multiplier, the total 1030 promotes
    the customer to PLATINUM at the second clock reading, and the multiplier
    reported in the response is read after the promotion. *)
Example purchase_gold_to_platinum :
  let t1 := "2024-05-01T10:00:00.000Z" in
  let t2 := "2024-05-01T10:00:00.001Z" in
  let r := purchase t1 t2 (Num.of_Z 2) (Num.of_Z 1500) customers in
  exists c, fst r = Ok c (Num.of_Z 180) (VNumber (Num.of_Z 2)) /\
            points c = Num.of_Z 1030 /\ status c = "PLATINUM" /\
            lastPurchaseDate c = t1 /\ lastStatusChange c = Some t2 /\
            snd r = [ nth 0 customers c; c ].
Proof.
  eexists. split; [vm_compute; reflexivity|]. repeat split; reflexivity.
Qed.

Local Close Scope string_scope.

(** * Rounding to nearest, ties to even, on fractions *)

Lemma div_mod_unique_pos N D q r :
  N = q * D + r -> 0 <= r < D -> N / D = q /\ N mod D = r.
Proof.
  intros HN Hr.
  assert (HD : 0 < D) by lia.
  symmetry in HN. rewrite Z.mul_comm in HN.
  split.
  - symmetry. apply (Z.div_unique_pos N D q r); lia.
  - symmetry. apply (Z.mod_unique_pos N D q r); lia.
Qed.

Lemma rne_eq N D q r :
  N = q * D + r -> 0 <= r < D -> rne N D = round_cmp q (2 * r ?= D).
Proof.
  intros HN Hr. unfold rne.
  destruct (div_mod_unique_pos N D q r HN Hr) as [-> ->]. reflexivity.
Qed.

Ltac case_cmp :=
  match goal with
  | |- context [?x ?= ?y] => destruct (Z.compare_spec x y) as [?|?|?]
  end.

Ltac case_leb :=
  match goal with
  | |- context [?x <=? ?y] => destruct (Z.leb_spec x y) as [?|?]
  end.

Ltac case_eqb :=
  match goal with
  | |- context [?x =? ?y] => destruct (Z.eqb_spec x y) as [?|?]
  end.

(** Decide the integer tests of the goal, then close it by arithmetic. *)
Ltac zbool :=
  repeat first [case_cmp | case_leb | case_eqb];
  cbn; try reflexivity; try lia.

Lemma holds_of_loc m r D :
  0 <= r < D -> holds (shr_record_of_loc m (loc r D)) (m * D + r) D.
Proof.
  intros Hr. exists r. unfold loc, rbit, sbit.
  destruct (Z.eqb_spec r 0) as [E|E].
  - subst r. cbn [shr_record_of_loc shr_m shr_r shr_s].
    repeat split; try lia; zbool.
  - destruct (Z.compare_spec (2 * r) D) as [C|C|C];
      cbn [shr_record_of_loc shr_m shr_r shr_s]; repeat split; try lia; zbool.
Qed.

Lemma loc_of_holds mrs N D :
  holds mrs N D ->
  round_nearest_even (shr_m mrs) (loc_of_shr_record mrs) = rne N D.
Proof.
  intros (r & HN & Hr & Hrb & Hsb).
  rewrite (rne_eq N D (shr_m mrs) r HN Hr).
  destruct mrs as [m rb sb]. cbn [shr_m shr_r shr_s] in *.
  subst rb sb. unfold rbit, sbit. zbool.
Qed.

Lemma shr_1_m mrs :
  0 <= shr_m mrs ->
  exists b, (b = 0 \/ b = 1) /\ shr_m mrs = 2 * shr_m (shr_1 mrs) + b /\
            shr_r (shr_1 mrs) = (b =? 1) /\
            shr_s (shr_1 mrs) = shr_r mrs || shr_s mrs.
Proof.
  destruct mrs as [m rb sb]. cbn [shr_m shr_r shr_s]. intros Hm.
  destruct m as [|[p|p|]|p]; cbn [shr_1 shr_m shr_r shr_s]; try lia;
    [exists 0 | exists 1 | exists 0 | exists 1]; repeat split; auto; lia.
Qed.

Lemma holds_shr_1 mrs N D :
  0 <= shr_m mrs -> holds mrs N D ->
  holds (shr_1 mrs) N (2 * D) /\ 0 <= shr_m (shr_1 mrs).
Proof.
  intros Hm (r & HN & Hr & Hrb & Hsb).
  destruct (shr_1_m mrs Hm) as (b & Hb & Hm1 & Hr1 & Hs1).
  split; [|lia].
  exists (b * D + r).
  rewrite Hr1, Hs1, Hrb, Hsb. unfold rbit, sbit.
  destruct Hb as [-> | ->]; repeat split; try lia; zbool.
Qed.

Lemma pow2_xO p : 2 ^ Z.pos p~0 = 2 ^ Z.pos p * 2 ^ Z.pos p.
Proof.
  rewrite <- Z.pow_add_r by lia. f_equal. lia.
Qed.

Lemma pow2_xI p : 2 ^ Z.pos p~1 = 2 * (2 ^ Z.pos p * 2 ^ Z.pos p).
Proof.
  rewrite <- Z.pow_add_r by lia.
  rewrite <- Z.pow_succ_r by lia. f_equal. lia.
Qed.

Lemma holds_iter_shr_1 p : forall mrs N D,
  0 <= shr_m mrs -> holds mrs N D ->
  holds (iter_pos shr_1 p mrs) N (D * 2 ^ Zpos p) /\
  0 <= shr_m (iter_pos shr_1 p mrs).
Proof.
  induction p as [p IH|p IH|]; intros mrs N D Hm H; cbn [iter_pos].
  - destruct (holds_shr_1 _ _ _ Hm H) as [H1 Hm1].
    destruct (IH _ _ _ Hm1 H1) as [H2 Hm2].
    destruct (IH _ _ _ Hm2 H2) as [H3 Hm3].
    split; auto.
    replace (D * 2 ^ Z.pos p~1) with (2 * D * 2 ^ Z.pos p * 2 ^ Z.pos p); auto.
    rewrite pow2_xI. ring.
  - destruct (IH _ _ _ Hm H) as [H2 Hm2].
    destruct (IH _ _ _ Hm2 H2) as [H3 Hm3].
    split; auto.
    replace (D * 2 ^ Z.pos p~0) with (D * 2 ^ Z.pos p * 2 ^ Z.pos p); auto.
    rewrite pow2_xO. ring.
  - destruct (holds_shr_1 _ _ _ Hm H) as [H1 Hm1]. split; auto.
    replace (D * 2 ^ 1) with (2 * D) by (rewrite Z.pow_1_r; ring). exact H1.
Qed.

(** [shr] by [n] places divides the denominator by [2 ^ n]. *)
Lemma holds_shr mrs e n N D :
  0 <= shr_m mrs -> holds mrs N D ->
  holds (fst (shr mrs e n)) N (D * 2 ^ Z.max n 0) /\
  0 <= shr_m (fst (shr mrs e n)) /\
  snd (shr mrs e n) = e + Z.max n 0.
Proof.
  intros Hm H. destruct n as [|p|p]; cbn [shr fst snd].
  - rewrite Z.mul_1_r, Z.add_0_r. auto.
  - destruct (holds_iter_shr_1 p _ _ _ Hm H) as [H1 H2].
    rewrite Z.max_l by lia. auto.
  - rewrite Z.max_r by lia. rewrite Z.mul_1_r, Z.add_0_r. auto.
Qed.

(** * Number of binary digits *)

Lemma digits2_pos_bounds p :
  2 ^ (Zpos (digits2_pos p) - 1) <= Zpos p < 2 ^ Zpos (digits2_pos p).
Proof.
  induction p as [p IH|p IH|]; cbn [digits2_pos].
  - rewrite Pos2Z.inj_succ.
    replace (Z.succ (Z.pos (digits2_pos p)) - 1)
      with (Z.succ (Z.pos (digits2_pos p) - 1)) by lia.
    rewrite !Z.pow_succ_r by lia. lia.
  - rewrite Pos2Z.inj_succ.
    replace (Z.succ (Z.pos (digits2_pos p)) - 1)
      with (Z.succ (Z.pos (digits2_pos p) - 1)) by lia.
    rewrite !Z.pow_succ_r by lia. lia.
  - cbn. lia.
Qed.

Lemma Zdigits2_bounds n :
  0 < n -> 2 ^ (Zdigits2 n - 1) <= n < 2 ^ Zdigits2 n.
Proof.
  destruct n as [|p|p]; try lia. intros _. apply digits2_pos_bounds.
Qed.

Lemma Zdigits2_pos n : 0 < n -> 0 < Zdigits2 n.
Proof. destruct n; cbn; lia. Qed.

Lemma Zdigits2_nonneg n : 0 <= Zdigits2 n.
Proof. destruct n; cbn; lia. Qed.

Lemma pow2_gt0 k : 0 <= k -> 0 < 2 ^ k.
Proof. intros. apply Z.pow_pos_nonneg; lia. Qed.

Lemma pow2_le a b : 0 <= a <= b -> 2 ^ a <= 2 ^ b.
Proof. intros. apply Z.pow_le_mono_r; lia. Qed.

Lemma pow2_lt a b : 0 <= a < b -> 2 ^ a < 2 ^ b.
Proof. intros. apply Z.pow_lt_mono_r; lia. Qed.

(** The number of digits is determined by the binade. *)
Lemma Zdigits2_unique n d :
  0 < d -> 2 ^ (d - 1) <= n < 2 ^ d -> Zdigits2 n = d.
Proof.
  intros Hd Hn.
  assert (Hn0 : 0 < n).
  { assert (0 < 2 ^ (d - 1)) by (apply pow2_gt0; lia). lia. }
  pose proof (Zdigits2_bounds n Hn0) as Hb.
  pose proof (Zdigits2_pos n Hn0) as Hp.
  destruct (Z.lt_trichotomy (Zdigits2 n) d) as [L|[E|G]]; auto.
  - assert (2 ^ Zdigits2 n <= 2 ^ (d - 1)) by (apply pow2_le; lia). lia.
  - assert (2 ^ d <= 2 ^ (Zdigits2 n - 1)) by (apply pow2_le; lia). lia.
Qed.

Lemma Zdigits2_le_iff n d : 0 <= n -> 0 <= d -> (Zdigits2 n <= d <-> n < 2 ^ d).
Proof.
  intros Hn Hd.
  assert (n = 0 \/ 0 < n) as [->|Hn0] by lia.
  - cbn. pose proof (pow2_gt0 d Hd). lia.
  - pose proof (Zdigits2_bounds n Hn0) as Hb.
    pose proof (Zdigits2_pos n Hn0) as Hp. split; intros H.
    + assert (2 ^ Zdigits2 n <= 2 ^ d) by (apply pow2_le; lia). lia.
    + destruct (Z.le_gt_cases (Zdigits2 n) d); auto.
      assert (2 ^ d <= 2 ^ (Zdigits2 n - 1)) by (apply pow2_le; lia). lia.
Qed.

Lemma Zdigits2_mono a b : 0 <= a <= b -> Zdigits2 a <= Zdigits2 b.
Proof.
  intros H. apply Zdigits2_le_iff; try lia. apply Zdigits2_nonneg.
  assert (b = 0 \/ 0 < b) as [->|Hb] by lia.
  - assert (a = 0) as -> by lia. cbn. lia.
  - pose proof (Zdigits2_bounds b Hb). lia.
Qed.

Lemma Zdigits2_mul_pow2 n k :
  0 < n -> 0 <= k -> Zdigits2 (n * 2 ^ k) = Zdigits2 n + k.
Proof.
  intros Hn Hk. pose proof (Zdigits2_bounds n Hn) as Hb.
  pose proof (Zdigits2_pos n Hn) as Hp.
  pose proof (pow2_gt0 k Hk) as H2.
  apply Zdigits2_unique; try lia.
  replace (Zdigits2 n + k - 1) with ((Zdigits2 n - 1) + k) by lia.
  rewrite !Z.pow_add_r by lia. nia.
Qed.

Lemma Zdigits2_div_pow2 n k :
  0 <= n -> 0 <= k -> Zdigits2 (n / 2 ^ k) = Z.max (Zdigits2 n - k) 0.
Proof.
  intros Hn Hk. pose proof (pow2_gt0 k Hk) as H2.
  assert (n = 0 \/ 0 < n) as [->|Hn0] by lia.
  - rewrite Z.div_0_l by lia. cbn. lia.
  - pose proof (Zdigits2_bounds n Hn0) as Hb.
    pose proof (Zdigits2_pos n Hn0) as Hp.
    destruct (Z.le_gt_cases (Zdigits2 n) k) as [L|G].
    + rewrite Z.max_r by lia.
      assert (2 ^ Zdigits2 n <= 2 ^ k) by (apply pow2_le; lia).
      rewrite Z.div_small by lia. reflexivity.
    + rewrite Z.max_l by lia.
      apply Zdigits2_unique; try lia.
      split.
      * apply Z.div_le_lower_bound; try lia.
        rewrite <- Z.pow_add_r by lia.
        replace (k + (Zdigits2 n - k - 1)) with (Zdigits2 n - 1) by lia. lia.
      * apply Z.div_lt_upper_bound; try lia.
        rewrite <- Z.pow_add_r by lia.
        replace (k + (Zdigits2 n - k)) with (Zdigits2 n) by lia. lia.
Qed.

Lemma Zdigits2_mul_ge a b :
  0 < a -> 0 < b -> Zdigits2 a + Zdigits2 b - 1 <= Zdigits2 (a * b).
Proof.
  intros Ha Hb.
  pose proof (Zdigits2_bounds a Ha) as Ba. pose proof (Zdigits2_pos a Ha).
  pose proof (Zdigits2_bounds b Hb) as Bb. pose proof (Zdigits2_pos b Hb).
  destruct (Z.le_gt_cases (Zdigits2 a + Zdigits2 b - 1) (Zdigits2 (a * b)))
    as [L|G]; auto.
  assert (Hab : 0 < a * b) by nia.
  pose proof (Zdigits2_bounds (a * b) Hab) as Bab.
  assert (2 ^ Zdigits2 (a * b) <= 2 ^ (Zdigits2 a - 1 + (Zdigits2 b - 1)))
    by (apply pow2_le; pose proof (Zdigits2_nonneg (a * b)); lia).
  rewrite Z.pow_add_r in * by lia.
  assert (0 < 2 ^ (Zdigits2 a - 1)) by (apply pow2_gt0; lia).
  assert (0 < 2 ^ (Zdigits2 b - 1)) by (apply pow2_gt0; lia).
  nia.
Qed.

(** * The format: binary64 *)

Lemma fexp_eq e : fexp Num.prec Num.emax e = Z.max (e - 53) (-1074).
Proof. reflexivity. Qed.

(** [binary_round_aux] as two divisions by powers of two. *)
Lemma bra_closed sx mx ex r D :
  0 <= mx -> 0 <= r < D ->
  let n := Z.max (fexp Num.prec Num.emax (Zdigits2 mx + ex) - ex) 0 in
  let m1 := rne (mx * D + r) (D * 2 ^ n) in
  let e1 := ex + n in
  let n2 := Z.max (fexp Num.prec Num.emax (Zdigits2 m1 + e1) - e1) 0 in
  binary_round_aux Num.prec Num.emax sx mx ex (loc r D)
  = finish sx (m1 / 2 ^ n2) (e1 + n2).
Proof.
  intros Hmx Hr n m1 e1 n2.
  unfold binary_round_aux, shr_fexp.
  pose proof (holds_of_loc mx r D Hr) as H0.
  destruct (holds_shr (shr_record_of_loc mx (loc r D)) ex
              (fexp Num.prec Num.emax (Zdigits2 mx + ex) - ex)
              (mx * D + r) D) as (H1 & Hm1 & He1); auto.
  { destruct (loc r D) as [|[]]; cbn; lia. }
  fold n in H1, He1.
  destruct (shr (shr_record_of_loc mx (loc r D)) ex
              (fexp Num.prec Num.emax (Zdigits2 mx + ex) - ex)) as [mrs' e'].
  cbn [fst snd] in *.
  rewrite (loc_of_holds _ _ _ H1). fold m1. subst e'. fold e1.
  assert (Hm1' : 0 <= m1).
  { unfold m1, rne.
    assert (0 <= (mx * D + r) / (D * 2 ^ n)).
    { assert (0 < 2 ^ n) by (apply pow2_gt0; lia).
      apply Z.div_pos; nia. }
    unfold round_cmp. destruct (_ ?= _); try destruct (Z.even _); lia. }
  destruct (holds_shr (shr_record_of_loc m1 loc_Exact) e1
              (fexp Num.prec Num.emax (Zdigits2 m1 + e1) - e1)
              m1 1) as (H2 & Hm2 & He2).
  { cbn. exact Hm1'. }
  { exists 0. cbn. repeat split; lia. }
  fold n2 in H2, He2.
  destruct (shr (shr_record_of_loc m1 loc_Exact) e1
              (fexp Num.prec Num.emax (Zdigits2 m1 + e1) - e1)) as [mrs'' e''].
  cbn [fst snd] in *. subst e''.
  destruct H2 as (r2 & HN & Hr2 & _).
  assert (Hq : m1 / 2 ^ n2 = shr_m mrs'').
  { assert (0 < 2 ^ n2) by (apply pow2_gt0; lia).
    rewrite Z.mul_1_l in HN, Hr2.
    apply (div_mod_unique_pos m1 (2 ^ n2) (shr_m mrs'') r2); auto. }
  rewrite Hq. unfold finish.
  destruct (shr_m mrs''); reflexivity.
Qed.

(** * Doubles as integers: the value in units of [2 ^ -1074] *)

Lemma sexp_nonneg v : 0 <= sexp v.
Proof. unfold sexp. lia. Qed.

Lemma rne_bounds N D :
  0 < D -> N / D <= rne N D <= N / D + 1.
Proof.
  intros HD. unfold rne, round_cmp.
  destruct (_ ?= _); try destruct (Z.even _); lia.
Qed.

Lemma rne_scale N D k : 0 < D -> 0 < k -> rne (N * k) (D * k) = rne N D.
Proof.
  intros HD Hk.
  pose proof (Z.div_mod N D ltac:(lia)) as HN.
  pose proof (Z.mod_pos_bound N D HD) as Hr.
  rewrite (rne_eq (N * k) (D * k) (N / D) (N mod D * k)); try nia.
  unfold rne. f_equal.
  replace (2 * (N mod D * k)) with (2 * (N mod D) * k) by ring.
  symmetry. apply Zmult_compare_compat_r. lia.
Qed.

(** [binary_round_aux] rounds the value it is given to the nearest double. *)
Lemma bra_scaled sx mx ex r D c :
  0 <= mx -> 0 <= r < D -> 0 <= c -> 0 <= ex + 1074 + c ->
  ex <= fexp Num.prec Num.emax (Zdigits2 mx + ex) ->
  binary_round_aux Num.prec Num.emax sx mx ex (loc r D)
  = of_scaled sx (RN ((mx * D + r) * 2 ^ (ex + 1074 + c)) (D * 2 ^ c)).
Proof.
  intros Hmx Hr Hc Hjc Hpre.
  rewrite bra_closed by auto. cbv zeta.
  rewrite !fexp_eq in *.
  set (N := mx * D + r).
  set (j := ex + 1074) in *.
  set (n := Z.max (Z.max (Zdigits2 mx + ex - 53) (-1074) - ex) 0).
  assert (Hn : n = Z.max (Zdigits2 mx - 53) (- j)) by (unfold n, j; lia).
  set (E := n + j).
  assert (HE : E = Z.max (Zdigits2 mx + j - 53) 0) by (unfold E; lia).
  pose proof (Zdigits2_nonneg mx) as Hdmx.
  assert (H2c : 0 < 2 ^ c) by (apply pow2_gt0; lia).
  assert (H2n : 0 < 2 ^ n) by (apply pow2_gt0; lia).
  assert (H2E : 0 < 2 ^ E) by (apply pow2_gt0; lia).
  assert (H2jc : 0 < 2 ^ (j + c)) by (apply pow2_gt0; lia).
  assert (HND : N / D = mx /\ N mod D = r).
  { apply div_mod_unique_pos; unfold N; lia. }
  destruct HND as [HNq HNr].
  assert (HN0 : 0 <= N) by (unfold N; nia).
  (* the binade of the value *)
  assert (HsX : sexp (N * 2 ^ (j + c) / (D * 2 ^ c)) = E).
  { unfold sexp. rewrite HE.
    destruct (Z.le_gt_cases 0 j) as [Hj|Hj].
    - rewrite Z.pow_add_r by lia.
      rewrite Z.mul_assoc, Z.div_mul_cancel_r by lia.
      assert (mx = 0 \/ 0 < mx) as [Hz|Hpos] by lia.
      + assert (j = 0) by (rewrite Hz in Hn; cbn in Hn; lia).
        replace j with 0 by lia. rewrite Z.pow_0_r, Z.mul_1_r, HNq, Hz.
        cbn. reflexivity.
      + pose proof (Zdigits2_bounds mx Hpos) as Hb.
        pose proof (Zdigits2_pos mx Hpos) as Hp.
        assert (H2j : 0 < 2 ^ j) by (apply pow2_gt0; lia).
        rewrite (Zdigits2_unique (N * 2 ^ j / D) (Zdigits2 mx + j)); try lia.
        split.
        * apply Z.div_le_lower_bound; try lia.
          replace (Zdigits2 mx + j - 1) with (Zdigits2 mx - 1 + j) by lia.
          rewrite Z.pow_add_r by lia. unfold N.
          assert (0 <= (mx - 2 ^ (Zdigits2 mx - 1)) * D) by nia.
          assert (0 <= ((mx - 2 ^ (Zdigits2 mx - 1)) * D + r) * 2 ^ j) by nia.
          nia.
        * apply Z.div_lt_upper_bound; try lia.
          rewrite Z.pow_add_r by lia. unfold N.
          assert (0 < D * (2 ^ Zdigits2 mx - mx) - r) by nia.
          assert (0 < (D * (2 ^ Zdigits2 mx - mx) - r) * 2 ^ j) by nia.
          nia.
    - assert (H2j : 0 < 2 ^ (- j)) by (apply pow2_gt0; lia).
      assert (HDj : 0 < D * 2 ^ (- j)) by nia.
      replace c with (j + c + (- j)) at 2 by lia.
      rewrite (Z.pow_add_r 2 (j + c) (- j)) by lia.
      replace (D * (2 ^ (j + c) * 2 ^ (- j)))
        with (D * 2 ^ (- j) * 2 ^ (j + c)) by ring.
      rewrite Z.div_mul_cancel_r by lia.
      rewrite <- Z.div_div by lia.
      rewrite HNq, Zdigits2_div_pow2 by lia. lia. }
  unfold RN. fold N. fold j. rewrite HsX.
  (* the rounded mantissa *)
  assert (Hm1 : rne (N * 2 ^ (j + c)) (D * 2 ^ c * 2 ^ E) = rne N (D * 2 ^ n)).
  { replace (D * 2 ^ c * 2 ^ E) with (D * 2 ^ n * 2 ^ (j + c)).
    - apply rne_scale; nia.
    - unfold E. replace (n + j) with (n + j + c - c) by lia.
      replace (j + c) with (j + c) by lia.
      rewrite <- !Z.mul_assoc. f_equal.
      rewrite <- !Z.pow_add_r by lia. f_equal. lia. }
  rewrite Hm1.
  set (m1 := rne N (D * 2 ^ n)).
  assert (Hm1b : N / (D * 2 ^ n) <= m1 <= N / (D * 2 ^ n) + 1).
  { apply rne_bounds. nia. }
  assert (Hq : N / (D * 2 ^ n) = mx / 2 ^ n).
  { rewrite <- Z.div_div by lia. rewrite HNq. reflexivity. }
  rewrite Hq in Hm1b.
  assert (Hqd : Zdigits2 (mx / 2 ^ n) = Z.max (Zdigits2 mx - n) 0)
    by (apply Zdigits2_div_pow2; lia).
  assert (Hq0 : 0 <= mx / 2 ^ n) by (apply Z.div_pos; lia).
  assert (Hqlt : mx / 2 ^ n < 2 ^ 53).
  { apply Zdigits2_le_iff; lia. }
  assert (Hm1d : Zdigits2 m1 <= 54).
  { apply Zdigits2_le_iff; lia. }
  assert (Hm1n : 0 <= m1) by lia.
  replace (ex + n) with (E - 1074) by (unfold E, j; lia).
  set (n2 := Z.max (Z.max (Zdigits2 m1 + (E - 1074) - 53) (-1074)
                     - (E - 1074)) 0).
  assert (Hn2 : n2 = Z.max (Zdigits2 m1 - 53) 0) by (unfold n2; lia).
  unfold of_scaled.
  assert (m1 = 0 \/ 0 < m1) as [Hz|Hpos] by lia.
  - rewrite Hz. cbn [Z.mul]. rewrite !Z.div_0_l.
    + reflexivity.
    + apply Z.pow_nonzero; try lia. apply sexp_nonneg.
    + assert (0 < 2 ^ n2) by (apply pow2_gt0; lia). lia.
  - assert (Hd1 : 0 < E -> 53 <= Zdigits2 m1).
    { intros HE0.
      assert (Hnn : n = Zdigits2 mx - 53) by lia.
      assert (2 ^ 52 <= mx / 2 ^ n).
      { assert (Zdigits2 (mx / 2 ^ n) = 53) by lia.
        assert (0 < mx / 2 ^ n).
        { destruct (Z.eq_dec (mx / 2 ^ n) 0) as [e0|]; try lia.
          rewrite e0 in H. cbn in H. lia. }
        pose proof (Zdigits2_bounds _ H0) as Hb. rewrite H in Hb.
        replace (53 - 1) with 52 in Hb by lia. lia. }
      destruct (Z.le_gt_cases 53 (Zdigits2 m1)); auto.
      assert (m1 < 2 ^ 52) by (apply Zdigits2_le_iff; lia). lia. }
    assert (HsV : sexp (m1 * 2 ^ E) = E + n2).
    { unfold sexp. rewrite Zdigits2_mul_pow2 by lia.
      pose proof (Zdigits2_pos m1 Hpos). lia. }
    rewrite HsV. f_equal; try lia.
    assert (0 < 2 ^ n2) by (apply pow2_gt0; lia).
    rewrite Z.pow_add_r, (Z.mul_comm (2 ^ E)) by lia.
    symmetry. apply Z.div_mul_cancel_r; lia.
Qed.

Lemma wf_finite s m e :
  Num.wf (S754_finite s m e) ->
  Zdigits2 (Zpos m) <= 53 /\ -1074 <= e <= 971 /\
  e = Z.max (Zdigits2 (Zpos m) + e - 53) (-1074).
Proof.
  unfold Num.wf, valid_binary, bounded, canonical_mantissa. intros H.
  apply andb_true_iff in H. destruct H as [H1 H2].
  apply Z.eqb_eq in H1. apply Z.leb_le in H2.
  rewrite fexp_eq in H1. change (Num.emax - Num.prec) with 971 in H2.
  cbn [Zdigits2]. lia.
Qed.

Lemma units_pos s m e :
  Num.wf (S754_finite s m e) -> 0 < units (S754_finite s m e).
Proof.
  intros H. apply wf_finite in H. cbn [units].
  assert (0 < 2 ^ (e + 1074)) by (apply pow2_gt0; lia). nia.
Qed.

Lemma sexp_units s m e :
  Num.wf (S754_finite s m e) -> sexp (units (S754_finite s m e)) = e + 1074.
Proof.
  intros H. apply wf_finite in H. unfold sexp. cbn [units].
  rewrite Zdigits2_mul_pow2 by lia. lia.
Qed.

Lemma of_scaled_units s m e :
  Num.wf (S754_finite s m e) ->
  of_scaled s (units (S754_finite s m e)) = S754_finite s m e.
Proof.
  intros H. unfold of_scaled. rewrite (sexp_units s m e H).
  apply wf_finite in H. cbn [units].
  rewrite Z.div_mul by (apply Z.pow_nonzero; lia).
  unfold finish. replace (e + 1074 - 1074) with e by lia.
  rewrite (proj2 (Z.leb_le e 971)) by lia. reflexivity.
Qed.

(** ** Multiplication *)

Lemma mul_scaled sx mx ex sy my ey :
  Num.wf (S754_finite sx mx ex) -> Num.wf (S754_finite sy my ey) ->
  Num.mul (S754_finite sx mx ex) (S754_finite sy my ey)
  = of_scaled (xorb sx sy)
      (RN (units (S754_finite sx mx ex) * units (S754_finite sy my ey))
          (2 ^ 1074)).
Proof.
  intros Hx Hy. apply wf_finite in Hx, Hy.
  unfold Num.mul, SFmul.
  change loc_Exact with (loc 0 1).
  rewrite (bra_scaled _ _ _ 0 1 1074); try lia.
  - f_equal. f_equal; try lia. cbn [units].
    rewrite Pos2Z.inj_mul.
    replace (ex + ey + 1074 + 1074) with ((ex + 1074) + (ey + 1074)) by lia.
    rewrite Z.pow_add_r by lia. ring.
  - rewrite fexp_eq. rewrite Pos2Z.inj_mul.
    pose proof (Zdigits2_mul_ge (Zpos mx) (Zpos my) ltac:(lia) ltac:(lia)).
    pose proof (Zdigits2_pos (Zpos mx) ltac:(lia)).
    pose proof (Zdigits2_pos (Zpos my) ltac:(lia)).
    lia.
Qed.

(** ** Division *)

Lemma new_location_loc D r :
  0 < D -> 0 <= r < D -> new_location D r = loc r D.
Proof.
  intros HD Hr. unfold new_location, new_location_even, new_location_odd, loc.
  destruct (Z.even D) eqn:Ev; destruct (Z.eqb_spec r 0); auto.
  f_equal.
  assert (Hodd : Z.odd D = true) by (rewrite <- Z.negb_even, Ev; auto).
  apply Z.odd_spec in Hodd. destruct Hodd as [k Hk].
  destruct (Z.compare_spec (2 * r + 1) D); destruct (Z.compare_spec (2 * r) D);
    auto; lia.
Qed.

Lemma shift_mantissa m s :
  0 <= s ->
  match s with
  | 0 => m
  | Z.pos _ => Z.shiftl m s
  | Z.neg _ => 0
  end = m * 2 ^ s.
Proof.
  intros Hs. destruct s; try lia.
  apply Z.shiftl_mul_pow2. lia.
Qed.

Lemma div_scaled sx mx ex sy my ey :
  Num.wf (S754_finite sx mx ex) -> Num.wf (S754_finite sy my ey) ->
  Num.div (S754_finite sx mx ex) (S754_finite sy my ey)
  = of_scaled (xorb sx sy)
      (RN (units (S754_finite sx mx ex) * 2 ^ 1074)
          (units (S754_finite sy my ey))).
Proof.
  intros Hx Hy. apply wf_finite in Hx, Hy.
  unfold Num.div, SFdiv, SFdiv_core_binary.
  rewrite !fexp_eq.
  set (d1 := Zdigits2 (Zpos mx)) in *. set (d2 := Zdigits2 (Zpos my)) in *.
  assert (Hd1 : 0 < d1) by (apply Zdigits2_pos; lia).
  assert (Hd2 : 0 < d2) by (apply Zdigits2_pos; lia).
  set (e' := Z.min (Z.max (d1 + ex - (d2 + ey) - 53) (-1074)) (ex - ey)).
  set (s := ex - ey - e').
  assert (Hs : 0 <= s) by (unfold s, e'; lia).
  set (m' := match s with
             | 0 => Z.pos mx
             | Z.pos _ => Z.shiftl (Z.pos mx) s
             | Z.neg _ => 0
             end).
  assert (Hm' : m' = Zpos mx * 2 ^ s).
  { unfold m'. apply shift_mantissa. exact Hs. }
  assert (H2s : 0 < 2 ^ s) by (apply pow2_gt0; lia).
  pose proof (Z_div_mod m' (Zpos my) ltac:(lia)) as Hdm.
  destruct (Z.div_eucl m' (Z.pos my)) as [q r]. destruct Hdm as [Hdm Hr].
  rewrite new_location_loc by lia.
  assert (Hq0 : 0 <= q) by nia.
  rewrite (bra_scaled _ _ _ r (Zpos my) (ey + 1074)); try lia.
  - f_equal. f_equal.
    + replace (q * Z.pos my + r) with m' by lia. rewrite Hm'. cbn [units].
      rewrite <- !Z.mul_assoc. f_equal.
      rewrite <- !Z.pow_add_r by (unfold e'; lia).
      f_equal. unfold s. lia.
  - rewrite fexp_eq.
    destruct (Z.le_gt_cases e' (-1074)) as [L|G]; try lia.
    assert (He' : e' = d1 + ex - (d2 + ey) - 53) by (unfold e' in *; lia).
    assert (Hs' : s = 53 + d2 - d1) by (unfold s; lia).
    pose proof (Zdigits2_bounds (Zpos mx) ltac:(lia)) as B1.
    pose proof (Zdigits2_bounds (Zpos my) ltac:(lia)) as B2.
    fold d1 in B1. fold d2 in B2.
    assert (H52 : 2 ^ 52 <= q).
    { assert (2 ^ (52 + d2) <= m').
      { rewrite Hm', Hs'.
        replace (52 + d2) with ((d1 - 1) + (53 + d2 - d1)) by lia.
        rewrite Z.pow_add_r by lia.
        assert (0 < 2 ^ (53 + d2 - d1)) by (apply pow2_gt0; lia). nia. }
      rewrite Z.pow_add_r in H by lia.
      assert (0 < 2 ^ 52) by (apply pow2_gt0; lia).
      nia. }
    assert (53 <= Zdigits2 q).
    { destruct (Z.le_gt_cases 53 (Zdigits2 q)); auto.
      assert (q < 2 ^ 52) by (apply Zdigits2_le_iff; lia). lia. }
    lia.
Qed.

(** ** Representable magnitudes *)

Lemma repr_0 : repr 0.
Proof. split; [lia|]. exists 0. reflexivity. Qed.

Lemma sexp_le v : 0 <= v < 2 ^ 2098 -> sexp v <= 2045.
Proof.
  intros H. unfold sexp.
  assert (Zdigits2 v <= 2098) by (apply Zdigits2_le_iff; lia). lia.
Qed.

(** The double of a representable magnitude, explicitly. *)
Lemma of_scaled_finite s v :
  repr v -> 0 < v ->
  exists m, of_scaled s v = S754_finite s m (sexp v - 1074) /\
            Zpos m * 2 ^ sexp v = v /\
            Num.wf (S754_finite s m (sexp v - 1074)).
Proof.
  intros [Hv [k Hk]] Hpos.
  pose proof (sexp_nonneg v) as HE. pose proof (sexp_le v Hv) as HE2.
  set (E := sexp v) in *.
  assert (H2E : 0 < 2 ^ E) by (apply pow2_gt0; lia).
  assert (Hk0 : 0 < k) by nia.
  destruct k as [|m|m]; try lia.
  exists m. unfold of_scaled. fold E.
  rewrite Hk at 1. rewrite Z.div_mul by lia. unfold finish.
  rewrite (proj2 (Z.leb_le (E - 1074) 971)) by lia.
  repeat split; auto.
  unfold Num.wf, valid_binary, bounded, canonical_mantissa.
  rewrite fexp_eq. change (Num.emax - Num.prec) with 971.
  apply andb_true_iff. split; [apply Z.eqb_eq | apply Z.leb_le; lia].
  change (Z.pos (digits2_pos m)) with (Zdigits2 (Zpos m)).
  assert (Hd : Zdigits2 v = Zdigits2 (Zpos m) + E).
  { rewrite Hk. apply Zdigits2_mul_pow2; lia. }
  unfold E, sexp in *. lia.
Qed.

Lemma of_scaled_wf v : repr v -> Num.wf (of_scaled false v).
Proof.
  intros H. assert (v = 0 \/ 0 < v) as [->|Hp] by (destruct H; lia).
  - reflexivity.
  - destruct (of_scaled_finite false v H Hp) as (m & -> & _ & Hw). exact Hw.
Qed.

Lemma of_scaled_nonneg v : repr v -> nonneg (of_scaled false v) = true.
Proof.
  intros H. assert (v = 0 \/ 0 < v) as [->|Hp] by (destruct H; lia).
  - reflexivity.
  - destruct (of_scaled_finite false v H Hp) as (m & -> & _ & Hw). reflexivity.
Qed.

Lemma units_of_scaled v : repr v -> units (of_scaled false v) = v.
Proof.
  intros H. assert (v = 0 \/ 0 < v) as [->|Hp] by (destruct H; lia).
  - reflexivity.
  - destruct (of_scaled_finite false v H Hp) as (m & -> & Hm & Hw).
    cbn [units]. replace (sexp v - 1074 + 1074) with (sexp v) by lia. exact Hm.
Qed.

Lemma repr_units x : Num.wf x -> repr (units x).
Proof.
  destruct x as [s|s| |s m e]; intros H; try apply repr_0.
  pose proof (units_pos s m e H) as Hp.
  pose proof (sexp_units s m e H) as HE.
  pose proof (wf_finite s m e H) as (Hd & He & Hc).
  split.
  - split; [lia|]. cbn [units].
    assert (Z.pos m < 2 ^ 53) by (apply Zdigits2_le_iff; lia).
    assert (2 ^ (e + 1074) <= 2 ^ 2045) by (apply pow2_le; lia).
    assert (0 < 2 ^ (e + 1074)) by (apply pow2_gt0; lia).
    replace (2 ^ 2098) with (2 ^ 53 * 2 ^ 2045)
      by (rewrite <- Z.pow_add_r by lia; reflexivity).
    assert (0 < 2 ^ 53) by (apply pow2_gt0; lia).
    nia.
  - exists (Zpos m). rewrite HE. reflexivity.
Qed.

(** ** Comparison *)

Lemma pos_compare_cont_Eq a b : Pos.compare_cont Eq a b = (Zpos a ?= Zpos b).
Proof. reflexivity. Qed.

Lemma compare_units x y :
  Num.wf x -> Num.wf y -> nonneg x = true -> nonneg y = true ->
  SFcompare x y = Some (units x ?= units y).
Proof.
  destruct x as [[]|sx| |[] mx ex]; destruct y as [[]|sy| |[] my ey];
    intros Hx Hy Nx Ny; try discriminate; cbn [SFcompare].
  - reflexivity.
  - pose proof (units_pos _ _ _ Hy). f_equal. symmetry.
    apply Z.compare_lt_iff. cbn [units] in *. lia.
  - pose proof (units_pos _ _ _ Hx). f_equal. symmetry.
    apply Z.compare_gt_iff. cbn [units] in *. lia.
  - f_equal. rewrite pos_compare_cont_Eq.
    pose proof (wf_finite _ _ _ Hx) as (Hdx & Hex & Hcx).
    pose proof (wf_finite _ _ _ Hy) as (Hdy & Hey & Hcy).
    pose proof (Zdigits2_bounds (Zpos mx) ltac:(lia)) as Bx.
    pose proof (Zdigits2_bounds (Zpos my) ltac:(lia)) as By.
    pose proof (Zdigits2_pos (Zpos mx) ltac:(lia)) as Px.
    pose proof (Zdigits2_pos (Zpos my) ltac:(lia)) as Py.
    cbn [units].
    assert (Hlt : forall m1 e1 m2 e2,
               0 < m1 < 2 ^ 53 -> 2 ^ 52 <= m2 -> -1074 <= e1 < e2 ->
               m1 * 2 ^ (e1 + 1074) < m2 * 2 ^ (e2 + 1074)).
    { intros m1 e1 m2 e2 H1 H2 He.
      replace (e2 + 1074) with ((e1 + 1074) + (e2 - e1)) by lia.
      rewrite (Z.pow_add_r 2 (e1 + 1074) (e2 - e1)) by lia.
      assert (0 < 2 ^ (e1 + 1074)) by (apply pow2_gt0; lia).
      assert (2 ^ 1 <= 2 ^ (e2 - e1)) by (apply pow2_le; lia).
      change (2 ^ 1) with 2 in *. change (2 ^ 53) with (2 * 2 ^ 52) in *.
      assert (0 < 2 ^ 52) by (apply pow2_gt0; lia).
      assert (m2 * 2 <= m2 * 2 ^ (e2 - e1))
        by (apply Z.mul_le_mono_nonneg_l; lia).
      assert (m1 < m2 * 2 ^ (e2 - e1)) by lia.
      rewrite Z.mul_assoc, (Z.mul_comm m2), <- Z.mul_assoc.
      rewrite (Z.mul_comm m1).
      apply Z.mul_lt_mono_pos_l; lia. }
    assert (Hn : forall m e, Zdigits2 m <= 53 -> 0 < m ->
               e = Z.max (Zdigits2 m + e - 53) (-1074) ->
               (m < 2 ^ 53) /\ (-1074 < e -> 2 ^ 52 <= m)).
    { intros m e Hd Hm He. split.
      - apply Zdigits2_le_iff; lia.
      - intros G. assert (Zdigits2 m = 53) as E53 by lia.
        pose proof (Zdigits2_bounds m Hm) as B. rewrite E53 in B.
        replace (53 - 1) with 52 in B by lia. lia. }
    destruct (Hn (Zpos mx) ex Hdx ltac:(lia) Hcx) as [Ux Lx].
    destruct (Hn (Zpos my) ey Hdy ltac:(lia) Hcy) as [Uy Ly].
    destruct (Z.compare_spec ex ey) as [C|C|C].
    + subst ey. symmetry.
      rewrite <- (Zmult_compare_compat_r (Zpos mx) (Zpos my) (2 ^ (ex + 1074))).
      * reflexivity.
      * assert (0 < 2 ^ (ex + 1074)) by (apply pow2_gt0; lia). lia.
    + symmetry. apply Z.compare_lt_iff. apply Hlt; lia.
    + symmetry. apply Z.compare_gt_iff. apply Hlt; lia.
Qed.

Lemma le_units x y :
  Num.wf x -> Num.wf y -> nonneg x = true -> nonneg y = true ->
  Num.le x y = (units x <=? units y).
Proof.
  intros. unfold Num.le, SFleb. rewrite compare_units by auto.
  unfold Z.leb. destruct (units x ?= units y); reflexivity.
Qed.

Lemma lt_units x y :
  Num.wf x -> Num.wf y -> nonneg x = true -> nonneg y = true ->
  Num.lt x y = (units x <? units y).
Proof.
  intros. unfold Num.lt, SFltb. rewrite compare_units by auto.
  unfold Z.ltb. destruct (units x ?= units y); reflexivity.
Qed.

(** ** Properties of rounding *)

Lemma rne_mono N1 D1 N2 D2 :
  0 < D1 -> 0 < D2 -> N1 * D2 <= N2 * D1 -> rne N1 D1 <= rne N2 D2.
Proof.
  intros H1 H2 H.
  pose proof (Z.div_mod N1 D1 ltac:(lia)) as E1.
  pose proof (Z.mod_pos_bound N1 D1 H1) as R1.
  pose proof (Z.div_mod N2 D2 ltac:(lia)) as E2.
  pose proof (Z.mod_pos_bound N2 D2 H2) as R2.
  unfold rne.
  set (q1 := N1 / D1) in *. set (r1 := N1 mod D1) in *.
  set (q2 := N2 / D2) in *. set (r2 := N2 mod D2) in *.
  assert (Hq : q1 <= q2).
  { destruct (Z.le_gt_cases q1 q2); auto.
    assert (q2 + 1 <= q1) by lia.
    assert (N2 * D1 < (q2 + 1) * D2 * D1) by nia.
    assert ((q2 + 1) * D2 * D1 <= q1 * D1 * D2) by nia.
    nia. }
  assert (q1 < q2 \/ q1 = q2) as [L|Eq] by lia.
  - unfold round_cmp.
    destruct (2 * r1 ?= D1); destruct (2 * r2 ?= D2);
      try destruct (Z.even q1); try destruct (Z.even q2); lia.
  - assert (Hr : r1 * D2 <= r2 * D1) by nia.
    rewrite <- Eq. unfold round_cmp.
    destruct (Z.compare_spec (2 * r1) D1);
      destruct (Z.compare_spec (2 * r2) D2);
      try destruct (Z.even q1); try lia; nia.
Qed.

Lemma rne_exact k D : 0 < D -> rne (k * D) D = k.
Proof.
  intros HD. rewrite (rne_eq (k * D) D k 0) by lia.
  unfold round_cmp. destruct (Z.compare_spec (2 * 0) D); lia.
Qed.

Lemma RN_form P Q :
  0 <= P -> 0 < Q ->
  let E := sexp (P / Q) in
  let m := rne P (Q * 2 ^ E) in
  RN P Q = m * 2 ^ E /\
  P / Q / 2 ^ E <= m <= P / Q / 2 ^ E + 1 /\
  m <= 2 ^ 53 /\ (0 < E -> 2 ^ 52 <= P / Q / 2 ^ E).
Proof.
  intros HP HQ E m.
  pose proof (sexp_nonneg (P / Q)) as HE. fold E in HE.
  assert (H2E : 0 < 2 ^ E) by (apply pow2_gt0; lia).
  assert (HX : 0 <= P / Q) by (apply Z.div_pos; lia).
  pose proof (rne_bounds P (Q * 2 ^ E) ltac:(nia)) as Hb. fold m in Hb.
  rewrite <- Z.div_div in Hb by lia.
  pose proof (Zdigits2_div_pow2 (P / Q) E HX HE) as Hd.
  pose proof (Zdigits2_nonneg (P / Q)) as Hdn.
  assert (Hq0 : 0 <= P / Q / 2 ^ E) by (apply Z.div_pos; lia).
  assert (Hq53 : P / Q / 2 ^ E < 2 ^ 53).
  { apply Zdigits2_le_iff; try lia. unfold E, sexp in *. lia. }
  repeat split; try lia.
  intros HE0.
  assert (Hd53 : Zdigits2 (P / Q / 2 ^ E) = 53) by (unfold E, sexp in *; lia).
  assert (0 < P / Q / 2 ^ E).
  { destruct (Z.eq_dec (P / Q / 2 ^ E) 0) as [e0|]; try lia.
    rewrite e0 in Hd53. cbn in Hd53. lia. }
  pose proof (Zdigits2_bounds _ H) as B. rewrite Hd53 in B.
  replace (53 - 1) with 52 in B by lia. lia.
Qed.

Lemma RN_nonneg P Q : 0 <= P -> 0 < Q -> 0 <= RN P Q.
Proof.
  intros HP HQ. destruct (RN_form P Q HP HQ) as (-> & Hb & _).
  assert (0 <= P / Q) by (apply Z.div_pos; lia).
  pose proof (sexp_nonneg (P / Q)).
  assert (0 < 2 ^ sexp (P / Q)) by (apply pow2_gt0; lia).
  assert (0 <= P / Q / 2 ^ sexp (P / Q)) by (apply Z.div_pos; lia).
  nia.
Qed.

(** A rounded value is representable, unless it overflows. *)
Lemma RN_repr P Q : 0 <= P -> 0 < Q -> RN P Q < 2 ^ 2098 -> repr (RN P Q).
Proof.
  intros HP HQ Hov. pose proof (RN_nonneg P Q HP HQ) as H0.
  split; [lia|].
  destruct (RN_form P Q HP HQ) as (HR & Hb & H53 & H52).
  set (E := sexp (P / Q)) in *. set (m := rne P (Q * 2 ^ E)) in *.
  pose proof (sexp_nonneg (P / Q)) as HE. fold E in HE.
  assert (H2E : 0 < 2 ^ E) by (apply pow2_gt0; lia).
  assert (Hq0 : 0 <= P / Q / 2 ^ E).
  { apply Z.div_pos; try lia. apply Z.div_pos; lia. }
  rewrite HR.
  assert (m = 0 \/ 0 < m) as [->|Hm] by lia.
  - exists 0. reflexivity.
  - assert (Hs : sexp (m * 2 ^ E) = Z.max (Zdigits2 m + E - 53) 0).
    { unfold sexp. rewrite Zdigits2_mul_pow2 by lia. reflexivity. }
    pose proof (Zdigits2_pos m Hm) as Hdp.
    assert (m < 2 ^ 53 \/ m = 2 ^ 53) as [Hlt| ->] by lia.
    + assert (Hd : Zdigits2 m <= 53) by (apply Zdigits2_le_iff; lia).
      assert (HdE : 0 < E -> 53 <= Zdigits2 m).
      { intros G. specialize (H52 G).
        destruct (Z.le_gt_cases 53 (Zdigits2 m)); auto.
        assert (m < 2 ^ 52) by (apply Zdigits2_le_iff; lia). lia. }
      exists m. rewrite Hs. f_equal. f_equal. lia.
    + exists (2 ^ 52). rewrite Hs.
      replace (Zdigits2 (2 ^ 53)) with 54 by reflexivity.
      replace (Z.max (54 + E - 53) 0) with (1 + E) by lia.
      rewrite Z.pow_add_r by lia. change (2 ^ 53) with (2 ^ 52 * 2 ^ 1). ring.
Qed.

(** Rounding leaves a representable value unchanged. *)
Lemma RN_exact v Q : repr v -> 0 < Q -> RN (v * Q) Q = v.
Proof.
  intros [Hv [k Hk]] HQ. unfold RN.
  rewrite Z.div_mul by lia.
  pose proof (sexp_nonneg v).
  assert (0 < 2 ^ sexp v) by (apply pow2_gt0; lia).
  rewrite Hk at 1.
  replace (k * 2 ^ sexp v * Q) with (k * (Q * 2 ^ sexp v)) by ring.
  rewrite rne_exact by nia. lia.
Qed.

Lemma RN_scale P Q k : 0 <= P -> 0 < Q -> 0 < k -> RN (P * k) (Q * k) = RN P Q.
Proof.
  intros HP HQ Hk. unfold RN.
  rewrite Z.div_mul_cancel_r by lia.
  pose proof (sexp_nonneg (P / Q)).
  assert (0 < 2 ^ sexp (P / Q)) by (apply pow2_gt0; lia).
  replace (Q * k * 2 ^ sexp (P / Q)) with (Q * 2 ^ sexp (P / Q) * k) by ring.
  rewrite rne_scale by nia. reflexivity.
Qed.

Lemma div_le_cross P1 Q1 P2 Q2 :
  0 < Q1 -> 0 < Q2 -> P1 * Q2 <= P2 * Q1 -> P1 / Q1 <= P2 / Q2.
Proof.
  intros H1 H2 H.
  apply Z.div_le_lower_bound; try lia.
  pose proof (Z.div_mod P1 Q1 ltac:(lia)) as E1.
  pose proof (Z.mod_pos_bound P1 Q1 H1) as R1.
  assert (Q1 * (Q2 * (P1 / Q1)) <= Q1 * P2) by nia.
  nia.
Qed.

Lemma sexp_mono a b : 0 <= a <= b -> sexp a <= sexp b.
Proof.
  intros H. unfold sexp. pose proof (Zdigits2_mono a b H). lia.
Qed.

(** Rounding is monotone. *)
Lemma RN_mono P1 Q1 P2 Q2 :
  0 <= P1 -> 0 < Q1 -> 0 < Q2 -> P1 * Q2 <= P2 * Q1 ->
  RN P1 Q1 <= RN P2 Q2.
Proof.
  intros HP1 HQ1 HQ2 H.
  assert (HP2 : 0 <= P2) by nia.
  pose proof (div_le_cross _ _ _ _ HQ1 HQ2 H) as HX.
  assert (HX1 : 0 <= P1 / Q1) by (apply Z.div_pos; lia).
  pose proof (sexp_mono _ _ (conj HX1 HX)) as HE.
  destruct (RN_form P1 Q1 HP1 HQ1) as (R1 & B1 & U1 & L1).
  destruct (RN_form P2 Q2 HP2 HQ2) as (R2 & B2 & U2 & L2).
  set (E1 := sexp (P1 / Q1)) in *. set (E2 := sexp (P2 / Q2)) in *.
  pose proof (sexp_nonneg (P1 / Q1)) as HE1. fold E1 in HE1.
  assert (H2E1 : 0 < 2 ^ E1) by (apply pow2_gt0; lia).
  assert (H2E2 : 0 < 2 ^ E2) by (apply pow2_gt0; lia).
  rewrite R1, R2.
  assert (E1 = E2 \/ E1 < E2) as [Eq|Lt] by lia.
  - rewrite <- Eq. apply Z.mul_le_mono_nonneg_r; try lia.
    apply rne_mono; [nia | nia | ].
    replace (P1 * (Q2 * 2 ^ E1)) with (P1 * Q2 * 2 ^ E1) by ring.
    replace (P2 * (Q1 * 2 ^ E1)) with (P2 * Q1 * 2 ^ E1) by ring.
    apply Z.mul_le_mono_nonneg_r; lia.
  - specialize (L2 ltac:(lia)).
    apply Z.le_trans with (2 ^ 53 * 2 ^ E1).
    + apply Z.mul_le_mono_nonneg_r; lia.
    + apply Z.le_trans with (2 ^ 52 * 2 ^ E2).
      * replace E2 with (E1 + 1 + (E2 - E1 - 1)) by lia.
        rewrite !Z.pow_add_r by lia.
        assert (0 < 2 ^ (E2 - E1 - 1)) by (apply pow2_gt0; lia).
        change (2 ^ 53) with (2 ^ 52 * 2 ^ 1).
        nia.
      * apply Z.mul_le_mono_nonneg_r; lia.
Qed.

(** ** Conversion of integers *)

Lemma iter_xO m d : Zpos (Pos.iter xO m d) = Zpos m * 2 ^ Zpos d.
Proof.
  induction d as [|d IH] using Pos.peano_ind.
  - cbn. lia.
  - rewrite Pos.iter_succ, Pos2Z.inj_succ, Z.pow_succ_r by lia.
    rewrite Pos2Z.inj_xO, IH. ring.
Qed.

Lemma binary_round_scaled s m e :
  -1074 <= e ->
  binary_round Num.prec Num.emax s m e
  = of_scaled s (RN (Zpos m * 2 ^ (e + 1074)) 1).
Proof.
  intros He. unfold binary_round, shl_align.
  change (Z.pos (digits2_pos m)) with (Zdigits2 (Zpos m)).
  rewrite fexp_eq.
  pose proof (Zdigits2_pos (Zpos m) ltac:(lia)) as Hd.
  remember (Z.max (Zdigits2 (Z.pos m) + e - 53) (-1074)) as f eqn:Hf.
  change loc_Exact with (loc 0 1).
  destruct (f - e) as [|d|d] eqn:Hfe.
  - rewrite (bra_scaled _ _ _ 0 1 0); try lia.
    + rewrite Z.mul_1_r, Z.add_0_r, Z.add_0_r. reflexivity.
    + rewrite fexp_eq. lia.
  - rewrite (bra_scaled _ _ _ 0 1 0); try lia.
    + rewrite Z.mul_1_r, Z.add_0_r, Z.add_0_r. reflexivity.
    + rewrite fexp_eq. lia.
  - rewrite (bra_scaled _ _ _ 0 1 0); try lia.
    + rewrite Z.mul_1_r, Z.add_0_r, Z.add_0_r, iter_xO.
      f_equal. f_equal. rewrite <- Z.mul_assoc. f_equal.
      rewrite <- Z.pow_add_r by lia. f_equal. lia.
    + rewrite fexp_eq, iter_xO, Zdigits2_mul_pow2 by lia. lia.
Qed.

Lemma repr_int n : 0 <= n <= 2 ^ 53 -> repr (n * 2 ^ 1074).
Proof.
  intros Hn.
  assert (H1074 : 0 < 2 ^ 1074) by (apply pow2_gt0; lia).
  split.
  - split; [nia|].
    replace (2 ^ 2098) with (2 ^ 1024 * 2 ^ 1074)
      by (rewrite <- Z.pow_add_r by lia; reflexivity).
    apply Z.mul_lt_mono_pos_r; auto.
    assert (2 ^ 53 < 2 ^ 1024) by (apply pow2_lt; lia). lia.
  - assert (n = 0 \/ 0 < n) as [->|Hp] by lia.
    + exists 0. reflexivity.
    + unfold sexp. rewrite Zdigits2_mul_pow2 by lia.
      pose proof (Zdigits2_pos n Hp) as Hd.
      assert (n < 2 ^ 53 \/ n = 2 ^ 53) as [Hlt| ->] by lia.
      * assert (Zdigits2 n <= 53) by (apply Zdigits2_le_iff; lia).
        set (E := Z.max (Zdigits2 n + 1074 - 53) 0).
        exists (n * 2 ^ (1074 - E)).
        rewrite <- Z.mul_assoc, <- Z.pow_add_r by (unfold E; lia).
        f_equal. f_equal. lia.
      * exists (2 ^ 52).
        replace (Zdigits2 (2 ^ 53)) with 54 by reflexivity.
        replace (Z.max (54 + 1074 - 53) 0) with (1 + 1074) by lia.
        rewrite (Z.pow_add_r 2 1 1074) by lia.
        change (2 ^ 53) with (2 ^ 52 * 2 ^ 1). ring.
Qed.

Lemma normalize_scaled n :
  0 <= n <= 2 ^ 53 ->
  binary_normalize Num.prec Num.emax n 0 false = of_scaled false (n * 2 ^ 1074).
Proof.
  intros Hn. destruct n as [|p|p]; try lia.
  - reflexivity.
  - cbn [binary_normalize]. rewrite binary_round_scaled by lia.
    replace (0 + 1074) with 1074 by lia.
    replace (Z.pos p * 2 ^ 1074) with (Z.pos p * 2 ^ 1074 * 1) at 1 by ring.
    rewrite RN_exact; auto; try lia. apply repr_int. lia.
Qed.

Lemma of_Z_scaled n :
  0 <= n <= 2 ^ 53 -> Num.of_Z n = of_scaled false (n * 2 ^ 1074).
Proof. apply normalize_scaled. Qed.

(** ** Math.floor *)

Lemma floor_scaled x :
  Num.wf x -> nonneg x = true ->
  Num.floor x = of_scaled false (ufloor (units x)).
Proof.
  destruct x as [[]|s| |[] m e]; intros Hw Hn; try discriminate.
  - reflexivity.
  - pose proof (wf_finite _ _ _ Hw) as (Hd & He & Hc).
    assert (H1074 : 0 < 2 ^ 1074) by (apply pow2_gt0; lia).
    unfold Num.floor, ufloor. cbn [units].
    destruct (Z.leb_spec 0 e) as [L|G].
    + rewrite Z.pow_add_r, Z.mul_assoc, Z.div_mul by lia.
      rewrite <- Z.mul_assoc, <- Z.pow_add_r by lia.
      symmetry. apply (of_scaled_units false m e Hw).
    + rewrite Z.shiftr_div_pow2 by lia.
      assert (H2e : 0 < 2 ^ (- e)) by (apply pow2_gt0; lia).
      assert (H2e' : 0 < 2 ^ (e + 1074)) by (apply pow2_gt0; lia).
      assert (Hq : Z.pos m * 2 ^ (e + 1074) / 2 ^ 1074 = Z.pos m / 2 ^ (- e)).
      { replace 1074 with (- e + (e + 1074)) at 2 by lia.
        rewrite (Z.pow_add_r 2 (- e) (e + 1074)) by lia.
        apply Z.div_mul_cancel_r; lia. }
      rewrite Hq. apply normalize_scaled.
      assert (Z.pos m < 2 ^ 53) by (apply Zdigits2_le_iff; lia).
      assert (0 <= Z.pos m / 2 ^ (- e)) by (apply Z.div_pos; lia).
      assert (Z.pos m / 2 ^ (- e) <= Z.pos m).
      { apply Z.div_le_upper_bound; try lia. nia. }
      lia.
Qed.

Lemma ufloor_le v : 0 <= v -> 0 <= ufloor v <= v.
Proof.
  intros Hv. unfold ufloor.
  assert (H1074 : 0 < 2 ^ 1074) by (apply pow2_gt0; lia).
  pose proof (Z.div_mod v (2 ^ 1074) ltac:(lia)).
  pose proof (Z.mod_pos_bound v (2 ^ 1074) H1074).
  assert (0 <= v / 2 ^ 1074) by (apply Z.div_pos; lia).
  nia.
Qed.

Lemma ufloor_mono a b : a <= b -> ufloor a <= ufloor b.
Proof.
  intros H. unfold ufloor.
  assert (H1074 : 0 < 2 ^ 1074) by (apply pow2_gt0; lia).
  apply Z.mul_le_mono_nonneg_r; try lia.
  apply Z.div_le_mono; lia.
Qed.

(** The integer part of a representable magnitude is representable. *)
Lemma repr_ufloor v : repr v -> repr (ufloor v).
Proof.
  intros Hv. pose proof (of_scaled_wf v Hv) as Hw.
  pose proof (of_scaled_nonneg v Hv) as Hn.
  pose proof (floor_scaled _ Hw Hn) as Hf.
  rewrite units_of_scaled in Hf by auto.
  destruct Hv as [Hb [k Hk]].
  pose proof (ufloor_le v ltac:(lia)) as Hle.
  split; [lia|].
  assert (H1074 : 0 < 2 ^ 1074) by (apply pow2_gt0; lia).
  pose proof (sexp_nonneg v) as HE.
  destruct (Z.le_gt_cases 1074 (sexp v)) as [L|G].
  - (* already an integer *)
    assert (Hu : ufloor v = v).
    { unfold ufloor. rewrite Hk at 1.
      replace (sexp v) with (sexp v - 1074 + 1074) at 1 by lia.
      rewrite Z.pow_add_r, Z.mul_assoc, Z.div_mul by lia.
      rewrite <- Z.mul_assoc, <- Z.pow_add_r by lia.
      replace (sexp v - 1074 + 1074) with (sexp v) by lia. lia. }
    rewrite Hu. exists k. exact Hk.
  - assert (Hs : sexp (ufloor v) <= 1074).
    { apply Z.le_trans with (sexp v); try lia. apply sexp_mono. lia. }
    pose proof (sexp_nonneg (ufloor v)) as HE'.
    exists (v / 2 ^ 1074 * 2 ^ (1074 - sexp (ufloor v))).
    rewrite <- Z.mul_assoc, <- Z.pow_add_r by lia.
    unfold ufloor at 1. f_equal. f_equal. lia.
Qed.

(** ** The award, in units *)

Lemma pow2_repr k : 0 <= k < 2098 -> repr (2 ^ k).
Proof.
  intros Hk. split.
  - split. apply Z.lt_le_incl, pow2_gt0; lia. apply pow2_lt; lia.
  - unfold sexp.
    rewrite (Zdigits2_unique (2 ^ k) (k + 1)); try lia.
    + exists (2 ^ (k - Z.max (k + 1 - 53) 0)).
      rewrite <- Z.pow_add_r by lia. f_equal. lia.
    + replace (k + 1 - 1) with k by lia. split; try lia.
      apply pow2_lt; lia.
Qed.

Lemma RN_le_repr P Q t :
  0 <= P -> 0 < Q -> repr t -> P <= t * Q -> RN P Q <= t.
Proof.
  intros HP HQ Ht H.
  rewrite <- (RN_exact t Q Ht HQ).
  apply RN_mono; auto. nia.
Qed.

Lemma RN_ge_repr P Q t :
  0 < Q -> repr t -> t * Q <= P -> t <= RN P Q.
Proof.
  intros HQ Ht H.
  rewrite <- (RN_exact t Q Ht HQ) at 1.
  destruct Ht as [Ht _].
  apply RN_mono; auto; nia.
Qed.

Lemma units_ten : units BASE_POINT_DIVISOR = 10 * 2 ^ 1074.
Proof. vm_compute. reflexivity. Qed.

Lemma ten_eq : BASE_POINT_DIVISOR = S754_finite false 5629499534213120 (-49).
Proof. reflexivity. Qed.

(** Division by [BASE_POINT_DIVISOR], then [Math.floor]. *)
Lemma base_scaled A :
  Num.wf A -> nonneg A = true ->
  Num.floor (Num.div A BASE_POINT_DIVISOR)
  = of_scaled false (ufloor (RN (units A) 10)) /\
  repr (ufloor (RN (units A) 10)) /\
  ufloor (RN (units A) 10) <= 2 ^ 2095.
Proof.
  intros Hw Hn.
  pose proof (repr_units A Hw) as Hr.
  assert (Ha : 0 <= units A < 2 ^ 2098) by (destruct Hr; lia).
  assert (Hv1 : RN (units A) 10 <= 2 ^ 2095).
  { apply RN_le_repr; try lia. apply pow2_repr; lia. }
  assert (H95 : 2 ^ 2095 < 2 ^ 2098) by (apply pow2_lt; lia).
  assert (Hr1 : repr (RN (units A) 10)).
  { apply RN_repr; lia. }
  assert (Hd : Num.div A BASE_POINT_DIVISOR
               = of_scaled false (RN (units A) 10)).
  { rewrite ten_eq.
    destruct A as [[]|s| |[] m e]; try discriminate.
    - reflexivity.
    - rewrite div_scaled by (auto; reflexivity). cbn [xorb].
      f_equal. rewrite <- ten_eq, units_ten.
      apply RN_scale; lia. }
  rewrite Hd.
  rewrite floor_scaled by (auto using of_scaled_wf, of_scaled_nonneg).
  rewrite units_of_scaled by auto.
  pose proof (ufloor_le (RN (units A) 10) ltac:(destruct Hr1; lia)).
  repeat split; auto using repr_ufloor; try lia; apply repr_ufloor; auto.
Qed.

(** Multiplication by a positive multiplier at most 2, then [Math.floor]. *)
Lemma mult_scaled b mm em :
  repr b -> b <= 2 ^ 2095 ->
  Num.wf (S754_finite false mm em) ->
  units (S754_finite false mm em) <= 2 ^ 1075 ->
  let u := units (S754_finite false mm em) in
  Num.floor (Num.mul (of_scaled false b) (S754_finite false mm em))
  = of_scaled false (ufloor (RN (b * u) (2 ^ 1074))) /\
  repr (ufloor (RN (b * u) (2 ^ 1074))).
Proof.
  intros Hb Hb95 Hw Hu u.
  assert (Hu0 : 0 < u) by (apply (units_pos false mm em Hw)).
  assert (H1074 : 0 < 2 ^ 1074) by (apply pow2_gt0; lia).
  assert (Hb0 : 0 <= b) by (destruct Hb; lia).
  assert (Hv2 : RN (b * u) (2 ^ 1074) <= 2 ^ 2096).
  { apply RN_le_repr; try nia. apply pow2_repr; lia. }
  assert (H96 : 2 ^ 2096 < 2 ^ 2098) by (apply pow2_lt; lia).
  assert (Hr2 : repr (RN (b * u) (2 ^ 1074))).
  { apply RN_repr; nia. }
  assert (Hm : Num.mul (of_scaled false b) (S754_finite false mm em)
               = of_scaled false (RN (b * u) (2 ^ 1074))).
  { assert (b = 0 \/ 0 < b) as [->|Hp] by lia.
    - reflexivity.
    - destruct (of_scaled_finite false b Hb Hp) as (m & Hm & Hmb & Hwb).
      rewrite Hm, mul_scaled by auto. cbn [xorb]. f_equal. f_equal.
      f_equal. cbn [units].
      replace (sexp b - 1074 + 1074) with (sexp b) by lia. exact Hmb. }
  rewrite Hm.
  rewrite floor_scaled by (auto using of_scaled_wf, of_scaled_nonneg).
  rewrite units_of_scaled by auto.
  split; auto. apply repr_ufloor; auto.
Qed.

Lemma award_mono u a1 a2 :
  0 <= u -> 0 <= a1 <= a2 -> award u a1 <= award u a2.
Proof.
  intros Hu Ha. unfold award.
  assert (H1074 : 0 < 2 ^ 1074) by (apply pow2_gt0; lia).
  apply ufloor_mono. 
  assert (H1 : ufloor (RN a1 10) <= ufloor (RN a2 10)).
  { apply ufloor_mono. apply RN_mono; lia. }
  pose proof (RN_nonneg a1 10 ltac:(lia) ltac:(lia)).
  pose proof (ufloor_le (RN a1 10) ltac:(lia)).
  apply RN_mono; try nia.
Qed.

(** ** Rounding error *)

Lemma rne_err N D : 0 < D -> - D <= 2 * (rne N D * D - N) <= D.
Proof.
  intros HD.
  pose proof (Z.div_mod N D ltac:(lia)) as E1.
  pose proof (Z.mod_pos_bound N D HD) as R1.
  unfold rne, round_cmp.
  set (q := N / D) in *. set (r := N mod D) in *.
  destruct (Z.compare_spec (2 * r) D); try destruct (Z.even q); nia.
Qed.

Lemma RN_err P Q :
  0 <= P -> 0 < Q ->
  - (Q * 2 ^ sexp (P / Q)) <= 2 * (RN P Q * Q - P) <= Q * 2 ^ sexp (P / Q).
Proof.
  intros HP HQ. unfold RN.
  pose proof (sexp_nonneg (P / Q)) as HE.
  set (E := sexp (P / Q)) in *.
  assert (H2E : 0 < 2 ^ E) by (apply pow2_gt0; lia).
  pose proof (rne_err P (Q * 2 ^ E) ltac:(nia)) as H.
  replace (rne P (Q * 2 ^ E) * 2 ^ E * Q) with (rne P (Q * 2 ^ E) * (Q * 2 ^ E))
    by ring.
  exact H.
Qed.

(** A value just below a multiple of the spacing is rounded up to it. *)
Lemma RN_round_up P Q t :
  0 <= P -> 0 < Q ->
  let E := sexp (P / Q) in
  P < t * 2 ^ E * Q -> 2 * (t * 2 ^ E * Q - P) < Q * 2 ^ E ->
  RN P Q = t * 2 ^ E.
Proof.
  intros HP HQ E Hlt Hnear. unfold RN. fold E.
  pose proof (sexp_nonneg (P / Q)) as HE. fold E in HE.
  assert (H2E : 0 < 2 ^ E) by (apply pow2_gt0; lia).
  f_equal.
  rewrite (rne_eq P (Q * 2 ^ E) (t - 1) (P - (t - 1) * (Q * 2 ^ E))).
  - unfold round_cmp.
    destruct (Z.compare_spec (2 * (P - (t - 1) * (Q * 2 ^ E))) (Q * 2 ^ E));
      try destruct (Z.even (t - 1)); nia.
  - ring.
  - nia.
Qed.

Lemma ufloor_unique v n :
  n * 2 ^ 1074 <= v < (n + 1) * 2 ^ 1074 -> ufloor v = n * 2 ^ 1074.
Proof.
  intros H. unfold ufloor. f_equal.
  assert (H1074 : 0 < 2 ^ 1074) by (apply pow2_gt0; lia).
  symmetry. apply (Z.div_unique_pos v (2 ^ 1074) n (v - n * 2 ^ 1074)); lia.
Qed.

Lemma ufloor_int n : ufloor (n * 2 ^ 1074) = n * 2 ^ 1074.
Proof. apply ufloor_unique. lia. Qed.

Lemma sexp_lower v : 0 <= v -> v < 2 ^ sexp v * 2 ^ 53.
Proof.
  intros Hv. unfold sexp.
  assert (v = 0 \/ 0 < v) as [->|Hp] by lia.
  - cbn. lia.
  - pose proof (Zdigits2_bounds v Hp) as B.
    pose proof (Zdigits2_pos v Hp) as Hd.
    rewrite <- Z.pow_add_r by lia.
    assert (2 ^ Zdigits2 v <= 2 ^ (Z.max (Zdigits2 v - 53) 0 + 53))
      by (apply pow2_le; lia).
    lia.
Qed.

Lemma sexp_upper v k : 0 <= v < 2 ^ k -> 53 <= k -> sexp v <= k - 53.
Proof.
  intros Hv Hk. unfold sexp.
  assert (Zdigits2 v <= k) by (apply Zdigits2_le_iff; lia). lia.
Qed.

(** ** The base points are exact below [2 ^ 53] *)

Lemma base_exact a :
  repr a -> a < 2 ^ 53 * 2 ^ 1074 ->
  ufloor (RN a 10) = a / (10 * 2 ^ 1074) * 2 ^ 1074 /\
  0 <= a / (10 * 2 ^ 1074) < 2 ^ 50.
Proof.
  intros Ha Hlt.
  set (K := 2 ^ 1074) in *.
  assert (HK : 0 < K) by (apply pow2_gt0; lia).
  destruct Ha as [Hb [k Hk]].
  set (n := a / (10 * K)).
  pose proof (Z.div_mod a (10 * K) ltac:(lia)) as Hdm.
  pose proof (Z.mod_pos_bound a (10 * K) ltac:(lia)) as Hr.
  fold n in Hdm.
  assert (Hn0 : 0 <= n) by (apply Z.div_pos; lia).
  assert (Hn50 : n < 2 ^ 50).
  { apply Z.div_lt_upper_bound; lia. }
  split; [|lia].
  assert (H5053 : 2 ^ 50 + 1 <= 2 ^ 53) by (vm_compute; discriminate).
  apply ufloor_unique. split.
  - apply RN_ge_repr; try lia. apply repr_int; lia.
  - assert (Hle : RN a 10 <= (n + 1) * K).
    { apply RN_le_repr; try lia. apply repr_int; lia. }
    assert (RN a 10 < (n + 1) * K \/ RN a 10 = (n + 1) * K) as [|Heq] by lia;
      auto.
    exfalso.
    pose proof (RN_err a 10 ltac:(lia) ltac:(lia)) as Herr.
    rewrite Heq in Herr.
    destruct (RN_form a 10 ltac:(lia) ltac:(lia)) as (HR & Hmb & Hm53 & Hm52).
    rewrite Heq in HR.
    pose proof (sexp_nonneg (a / 10)) as HE.
    set (E := sexp (a / 10)) in *.
    assert (H2E : 0 < 2 ^ E) by (apply pow2_gt0; lia).
    assert (E = 0 \/ 0 < E) as [E0|Epos] by lia.
    + rewrite E0 in HR, Hm53. change (2 ^ 0) with 1 in HR, Hm53.
      assert (2 ^ 53 < K) by (apply pow2_lt; lia).
      assert (K <= (n + 1) * K) by nia.
      lia.
    + assert (Ha10 : 0 <= a / 10) by (apply Z.div_pos; lia).
      assert (Ha8 : a / 10 <= a / 2 ^ 3).
      { apply Z.div_le_compat_l; lia. }
      pose proof (Zdigits2_mono _ _ (conj Ha10 Ha8)) as Hd.
      rewrite Zdigits2_div_pow2 in Hd by lia.
      assert (HEa : E + 3 <= sexp a) by (unfold E, sexp in *; lia).
      assert (HEa2 : sexp a <= 1074).
      { apply (sexp_upper a (53 + 1074)); lia. }
      assert (Hdiv : exists d, (n + 1) * K * 10 - a = d * 2 ^ (E + 3)).
      { exists (10 * (n + 1) * 2 ^ (1074 - (E + 3))
                - k * 2 ^ (sexp a - (E + 3))).
        rewrite Z.mul_sub_distr_r. f_equal.
        - rewrite <- !Z.mul_assoc, <- Z.pow_add_r by lia.
          replace (1074 - (E + 3) + (E + 3)) with 1074 by lia. fold K. ring.
        - rewrite Hk at 1. rewrite <- !Z.mul_assoc, <- Z.pow_add_r by lia.
          f_equal. f_equal. lia. }
      destruct Hdiv as [d Hd'].
      rewrite Z.pow_add_r in Hd' by lia. change (2 ^ 3) with 8 in Hd'.
      assert (0 < (n + 1) * K * 10 - a) by nia.
      assert (0 < d) by nia.
      nia.
Qed.

(** ** The multipliers *)

(** The literal [1.2] is 5404319552844595 * 2^-52, which is 1/5 of a unit
    in the last place below 12/10. *)
Lemma lit_1_2_eq :
  lit_1_2 = S754_finite false 5404319552844595 (-52) /\
  5 * 5404319552844595 = 6 * 2 ^ 52 - 1.
Proof. split; vm_compute; reflexivity. Qed.

(** Multiplying whole base points by the double [1.2] and flooring gives the
    floor of the exact product by 12/10. *)
Lemma gold_exact n :
  0 <= n < 2 ^ 50 ->
  ufloor (RN (n * 2 ^ 1074 * (5404319552844595 * 2 ^ 1022)) (2 ^ 1074))
  = 6 * n / 5 * 2 ^ 1074.
Proof.
  intros Hn.
  set (X := n * 5404319552844595 * 2 ^ 1022).
  replace (n * 2 ^ 1074 * (5404319552844595 * 2 ^ 1022)) with (X * 2 ^ 1074)
    by (unfold X; ring).
  replace (2 ^ 1074) with (1 * 2 ^ 1074) at 2 by ring.
  assert (HX0 : 0 <= X) by (unfold X; lia).
  rewrite RN_scale by lia.
  pose proof (Z.div_mod (6 * n) 5 ltac:(lia)) as Hdm.
  pose proof (Z.mod_pos_bound (6 * n) 5 ltac:(lia)) as Hr.
  set (g := 6 * n / 5) in *. set (r := (6 * n) mod 5) in *.
  assert (Hg : 0 <= g <= 2 ^ 53) by lia.
  pose proof (RN_err X 1 HX0 ltac:(lia)) as Herr.
  pose proof (sexp_lower (X / 1) ltac:(rewrite Z.div_1_r; lia)) as Hlow.
  pose proof (sexp_upper (X / 1) 1125
                ltac:(rewrite Z.div_1_r; unfold X; lia) ltac:(lia)) as Hup.
  pose proof (sexp_nonneg (X / 1)) as HE.
  set (E := sexp (X / 1)) in *.
  assert (HS : 0 < 2 ^ E <= 2 ^ 1072).
  { split. apply pow2_gt0; lia. apply pow2_le; lia. }
  rewrite Z.div_1_r in Hlow.
  apply ufloor_unique. split.
  - assert (r = 0 \/ 1 <= r) as [R0|R1] by lia.
    + assert (n = 0 \/ 0 < n) as [N0|Np] by lia.
      * replace g with 0 by lia. apply RN_nonneg; lia.
      * assert (HgK : g * 2 ^ (1074 - E) * 2 ^ E = g * 2 ^ 1074).
        { rewrite <- Z.mul_assoc, <- Z.pow_add_r by lia.
          replace (1074 - E + E) with 1074 by lia. reflexivity. }
        assert (Hup' : RN X 1 = g * 2 ^ (1074 - E) * 2 ^ E).
        { apply RN_round_up; try lia; fold E; rewrite HgK;
            remember (2 ^ E) as S; unfold X; lia. }
        rewrite Hup', HgK. lia.
    + apply RN_ge_repr; try lia. apply repr_int; lia.
  - remember (2 ^ E) as S. remember (RN X 1) as v. unfold X in *. lia.
Qed.

(** ** Exact values *)

Lemma Zpos_pow2 p : Zpos (2 ^ p)%positive = 2 ^ Zpos p.
Proof. apply Pos2Z.inj_pow. Qed.

Lemma to_Q_units s m e :
  -1074 <= e ->
  (Num.to_Q (S754_finite s m e)
   == Qmake (cond_Zopp s (Zpos m * 2 ^ (e + 1074))) (2 ^ 1074)%positive)%Q.
Proof.
  intros He. unfold Qeq.
  destruct e as [|p|p]; destruct s;
    cbn [Num.to_Q cond_Zopp Qnum Qden inject_Z];
    rewrite ?Zpos_pow2, ?Z.pow_pos_fold, ?Z.add_0_l.
  - lia.
  - lia.
  - rewrite (Z.pow_add_r 2 (Zpos p) 1074) by lia. lia.
  - rewrite (Z.pow_add_r 2 (Zpos p) 1074) by lia. lia.
  - replace 1074 with ((Z.neg p + 1074) + Zpos p) at 1 by lia.
    rewrite (Z.pow_add_r 2 (Z.neg p + 1074) (Zpos p)) by lia. ring.
  - replace 1074 with ((Z.neg p + 1074) + Zpos p) at 1 by lia.
    rewrite (Z.pow_add_r 2 (Z.neg p + 1074) (Zpos p)) by lia. ring.
Qed.

Lemma to_Q_of_scaled_int n :
  0 <= n -> repr (n * 2 ^ 1074) ->
  (Num.to_Q (of_scaled false (n * 2 ^ 1074)) == inject_Z n)%Q /\
  Num.isFinite (of_scaled false (n * 2 ^ 1074)) = true.
Proof.
  intros Hn Hr.
  assert (n = 0 \/ 0 < n) as [->|Hp] by lia.
  - split; reflexivity.
  - assert (H1074 : 0 < 2 ^ 1074) by (apply pow2_gt0; lia).
    destruct (of_scaled_finite false _ Hr ltac:(nia)) as (m & Hm & Hmv & Hw).
    rewrite Hm. split; [|reflexivity].
    pose proof (wf_finite _ _ _ Hw) as (_ & He & _).
    rewrite to_Q_units by lia. cbn [cond_Zopp].
    replace (sexp (n * 2 ^ 1074) - 1074 + 1074)
      with (sexp (n * 2 ^ 1074)) by lia.
    rewrite Hmv. unfold Qeq. cbn [Qnum Qden inject_Z]. rewrite Zpos_pow2. ring.
Qed.

(** A well-formed double that is the integer [n >= 0]. *)
Lemma int_units x n :
  Num.wf x -> Num.isFinite x = true -> (Num.to_Q x == inject_Z n)%Q -> 0 <= n ->
  (exists s, x = S754_zero s /\ n = 0) \/
  (nonneg x = true /\ units x = n * 2 ^ 1074).
Proof.
  intros Hw Hf Hq Hn.
  destruct x as [s|s| |s m e]; try discriminate.
  - left. exists s. split; auto.
    unfold Qeq in Hq. cbn in Hq. lia.
  - right. pose proof (wf_finite _ _ _ Hw) as (_ & He & _).
    rewrite to_Q_units in Hq by lia.
    unfold Qeq in Hq. cbn [Qnum Qden inject_Z] in Hq.
    rewrite Zpos_pow2 in Hq.
    assert (0 < 2 ^ (e + 1074)) by (apply pow2_gt0; lia).
    assert (0 < 2 ^ 1074) by (apply pow2_gt0; lia).
    destruct s; cbn [cond_Zopp] in Hq.
    + exfalso. nia.
    + split; auto. cbn [units]. lia.
Qed.

(** ** Comparison with an integer literal *)

Lemma ge_int x n k :
  Num.wf x -> Num.isFinite x = true -> (Num.to_Q x == inject_Z n)%Q -> 0 <= n ->
  0 < k <= 2 ^ 53 ->
  Num.ge x (Num.of_Z k) = (k <=? n).
Proof.
  intros Hw Hf Hq Hn Hk.
  assert (H1074 : 0 < 2 ^ 1074) by (apply pow2_gt0; lia).
  pose proof (repr_int k ltac:(lia)) as Hrk.
  rewrite of_Z_scaled by lia.
  destruct (int_units x n Hw Hf Hq Hn) as [(s & -> & ->)|[Hnn Hu]].
  - destruct (of_scaled_finite false _ Hrk ltac:(nia)) as (m & -> & _ & _).
    symmetry. apply Z.leb_gt. lia.
  - unfold Num.ge. fold (Num.le (of_scaled false (k * 2 ^ 1074)) x).
    rewrite le_units; auto using of_scaled_wf, of_scaled_nonneg.
    rewrite units_of_scaled, Hu by auto.
    destruct (Z.leb_spec k n); [apply Z.leb_le | apply Z.leb_gt]; nia.
Qed.

(** ** Multiplication by one and integral doubles *)

Lemma of_scaled_wf_any s v : repr v -> Num.wf (of_scaled s v).
Proof.
  intros H. assert (v = 0 \/ 0 < v) as [->|Hp] by (destruct H; lia).
  - reflexivity.
  - destruct (of_scaled_finite s v H Hp) as (m & -> & _ & Hw). exact Hw.
Qed.

Lemma normalize_neg_scaled k :
  0 < k <= 2 ^ 53 ->
  binary_normalize Num.prec Num.emax (- k) 0 true
  = of_scaled true (k * 2 ^ 1074).
Proof.
  intros Hk. destruct k as [|p|p]; try lia.
  cbn [Z.opp binary_normalize]. rewrite binary_round_scaled by lia.
  replace (0 + 1074) with 1074 by lia.
  replace (Z.pos p * 2 ^ 1074) with (Z.pos p * 2 ^ 1074 * 1) at 1 by ring.
  rewrite RN_exact; auto; try lia. apply repr_int. lia.
Qed.




Lemma integral_of_scaled s n :
  repr (n * 2 ^ 1074) -> integral (of_scaled s (n * 2 ^ 1074)).
Proof.
  intros Hr.
  assert (H1074 : 0 < 2 ^ 1074) by (apply pow2_gt0; lia).
  assert (n * 2 ^ 1074 = 0 \/ 0 < n * 2 ^ 1074) as [->|Hp]
      by (destruct Hr; lia).
  - exact I.
  - destruct (of_scaled_finite s _ Hr Hp) as (m & -> & Hm & Hw).
    exists n. replace (sexp (n * 2 ^ 1074) - 1074 + 1074)
      with (sexp (n * 2 ^ 1074)) by lia. exact Hm.
Qed.

Lemma floor_neg_k m e :
  e < 0 ->
  let q := Z.shiftr (Zpos m) (- e) in
  let k := if Z.shiftl q (- e) =? Zpos m then q else q + 1 in
  0 < k <= Zpos m.
Proof.
  intros He q k.
  assert (H2 : 2 <= 2 ^ (- e)).
  { change 2 with (2 ^ 1) at 1. apply pow2_le; lia. }
  unfold k, q. rewrite Z.shiftr_div_pow2, Z.shiftl_mul_pow2 by lia.
  pose proof (Z.div_mod (Zpos m) (2 ^ (- e)) ltac:(lia)) as Hdm.
  pose proof (Z.mod_pos_bound (Zpos m) (2 ^ (- e)) ltac:(lia)) as Hr.
  assert (0 <= Zpos m / 2 ^ (- e)) by (apply Z.div_pos; lia).
  destruct (Z.eqb_spec (Z.pos m / 2 ^ (- e) * 2 ^ (- e)) (Zpos m)); nia.
Qed.

Lemma floor_wf_integral x :
  Num.wf x -> Num.wf (Num.floor x) /\ integral (Num.floor x).
Proof.
  intros Hw. destruct x as [s|s| |s m e]; try (split; [exact Hw | exact I]).
  pose proof (wf_finite _ _ _ Hw) as (Hd & He & Hc).
  assert (H1074 : 0 < 2 ^ 1074) by (apply pow2_gt0; lia).
  assert (Hm53 : Zpos m < 2 ^ 53) by (apply Zdigits2_le_iff; lia).
  destruct (Z.leb_spec 0 e) as [L|G].
  - unfold Num.floor. rewrite (proj2 (Z.leb_le 0 e) L). split; auto.
    exists (Zpos m * 2 ^ e). rewrite Z.pow_add_r by lia. ring.
  - destruct s.
    + unfold Num.floor. rewrite (proj2 (Z.leb_gt 0 e) G).
      pose proof (floor_neg_k m e G) as Hk. cbv zeta in Hk.
      set (k := if _ =? _ then _ else _) in *.
      rewrite normalize_neg_scaled by lia.
      pose proof (repr_int k ltac:(lia)) as Hr.
      split; [apply of_scaled_wf_any | apply integral_of_scaled]; auto.
    + rewrite floor_scaled by auto.
      pose proof (repr_ufloor _ (repr_units _ Hw)) as Hr.
      split; [apply of_scaled_wf_any | apply integral_of_scaled]; auto.
Qed.


Lemma div_ten_wf A : Num.wf A -> Num.wf (Num.div A BASE_POINT_DIVISOR).
Proof.
  intros Hw. rewrite ten_eq.
  destruct A as [s|s| |s m e]; try reflexivity.
  rewrite div_scaled by (auto; reflexivity).
  rewrite <- ten_eq, units_ten.
  pose proof (repr_units _ Hw) as Hr.
  pose proof (units_pos _ _ _ Hw) as Hp.
  rewrite RN_scale by lia.
  apply of_scaled_wf_any. apply RN_repr; try lia.
  apply Z.le_lt_trans with (2 ^ 2095); [|apply pow2_lt; lia].
  apply RN_le_repr; try lia. apply pow2_repr; lia.
  destruct Hr as [Hb _].
  change (2 ^ 2098) with (2 ^ 2095 * 8) in Hb. lia.
Qed.


Local Open Scope string_scope.

(** ** The award of a recognised tier *)

Lemma tier_multiplier t :
  exists mm em,
    ToNumber (nullish (get_property STATUS_MULTIPLIER (tier_name t))
                (Num.of_Z 1)) = S754_finite false mm em /\
    Num.wf (S754_finite false mm em) /\
    units (S754_finite false mm em) = tier_units t /\
    tier_units t <= 2 ^ 1075.
Proof.
  destruct t;
    [ exists 4503599627370496%positive, (-52)
    | exists 4503599627370496%positive, (-52)
    | exists 5404319552844595%positive, (-52)
    | exists 4503599627370496%positive, (-51) ];
    (split; [vm_compute; reflexivity|]);
    (split; [reflexivity|]);
    (split; [reflexivity|]);
    vm_compute; discriminate.
Qed.

Lemma calc_award t A :
  Num.wf A -> nonneg A = true ->
  calcPointsWithStatus (tier_name t) A
  = of_scaled false (award (tier_units t) (units A)) /\
  repr (award (tier_units t) (units A)).
Proof.
  intros Hw Hn. unfold calcPointsWithStatus.
  destruct (tier_multiplier t) as (mm & em & -> & Hwm & Hu & Hu2).
  destruct (base_scaled A Hw Hn) as (-> & Hrb & Hb).
  rewrite <- Hu in Hu2.
  destruct (mult_scaled _ mm em Hrb Hb Hwm Hu2) as [Hm Hr].
  cbv zeta in Hm, Hr. rewrite Hu in Hm, Hr. split; assumption.
Qed.

(** A strictly positive finite double. *)
Lemma positive_finite A :
  Num.isFinite A = true -> Num.lt Num.pzero A = true ->
  nonneg A = true /\ exists m e, A = S754_finite false m e.
Proof.
  destruct A as [s|s| |[] m e]; try discriminate; intros _ _.
  split; [reflexivity|]. exists m, e. reflexivity.
Qed.

Lemma le_positive_finite A B :
  (exists m e, A = S754_finite false m e) ->
  Num.isFinite B = true -> Num.le A B = true -> nonneg B = true.
Proof.
  intros (m & e & ->). destruct B as [s|s| |[] m' e']; try discriminate;
    intros; reflexivity.
Qed.

(** ** Exact arithmetic of the specification *)

Lemma Qfloor_amount A :
  Num.wf A -> nonneg A = true ->
  Qfloor (Num.to_Q A / 10) = units A / (10 * 2 ^ 1074).
Proof.
  intros Hw Hn. destruct A as [[]|s| |[] m e]; try discriminate.
  - reflexivity.
  - pose proof (wf_finite _ _ _ Hw) as (_ & He & _).
    rewrite to_Q_units by lia. cbn [cond_Zopp units].
    unfold Qfloor, Qdiv, Qmult, Qinv. cbn [Qnum Qden].
    rewrite Pos2Z.inj_mul, Zpos_pow2. f_equal; lia.
Qed.

Lemma calculatePoints_eq t A :
  Num.wf A -> nonneg A = true ->
  calculatePoints t (Num.to_Q A)
  = match t with
    | BRONZE | SILVER => units A / (10 * 2 ^ 1074)
    | GOLD => 6 * (units A / (10 * 2 ^ 1074)) / 5
    | PLATINUM => 2 * (units A / (10 * 2 ^ 1074))
    end.
Proof.
  intros Hw Hn. unfold calculatePoints. rewrite Qfloor_amount by auto.
  set (n := units A / (10 * 2 ^ 1074)).
  destruct t; unfold Qfloor, multiplier, Qmult, inject_Z; cbn [Qnum Qden].
  - rewrite Z.div_1_r. lia.
  - rewrite Z.div_1_r. lia.
  - change (Z.pos (1 * 10)) with (5 * 2).
    replace (n * 12) with (6 * n * 2) by ring.
    apply Z.div_mul_cancel_r; lia.
  - rewrite Z.div_1_r. lia.
Qed.

(** The award below [2 ^ 53], in units. *)
Lemma award_exact t a :
  repr a -> a < 2 ^ 53 * 2 ^ 1074 ->
  let n := a / (10 * 2 ^ 1074) in
  let p := match t with
           | BRONZE | SILVER => n
           | GOLD => 6 * n / 5
           | PLATINUM => 2 * n
           end in
  award (tier_units t) a = p * 2 ^ 1074 /\ 0 <= p <= 2 ^ 53.
Proof.
  intros Ha Hlt n p. unfold award.
  destruct (base_exact a Ha Hlt) as [-> Hn]. fold n in Hn |- *.
  assert (H1074 : 0 < 2 ^ 1074) by (apply pow2_gt0; lia).
  assert (H50 : 2 ^ 50 * 2 <= 2 ^ 53) by (vm_compute; discriminate).
  assert (H53 : 0 < 2 ^ 53) by (apply pow2_gt0; lia).
  destruct t; unfold tier_units, p.
  - rewrite RN_exact by (try apply repr_int; lia).
    rewrite ufloor_int. lia.
  - rewrite RN_exact by (try apply repr_int; lia).
    rewrite ufloor_int. lia.
  - rewrite gold_exact by lia. split; auto.
    assert (6 * n / 5 <= 6 * n).
    { apply Z.div_le_upper_bound; lia. }
    assert (0 <= 6 * n / 5) by (apply Z.div_pos; lia).
    lia.
  - replace (n * 2 ^ 1074 * (2 * 2 ^ 1074)) with (2 * n * 2 ^ 1074 * 2 ^ 1074)
      by ring.
    rewrite RN_exact by (try apply repr_int; lia).
    rewrite ufloor_int. lia.
Qed.

(** * Points Calculator *)

(** C1 (as stated, refuted).  The amount 100000000000000016 is a finite,
    strictly positive double; for BRONZE the code returns
    10000000000000002, because the division by 10 is rounded to a double
    before [Math.floor], whereas floor(floor(A / 10) * 1.0) is
    10000000000000001. *)
Lemma calcPoints_inexact_at_1e17 :
  let A := Num.of_Z 100000000000000016 in
  Num.wf A /\ Num.isFinite A = true /\ Num.lt Num.pzero A = true /\
  (Num.to_Q A == inject_Z 100000000000000016)%Q /\
  (Num.to_Q (calcPointsWithStatus (tier_name BRONZE) A)
   == inject_Z 10000000000000002)%Q /\
  calculatePoints BRONZE (Num.to_Q A) = 10000000000000001.
Proof. vm_compute. repeat split; reflexivity. Qed.

(** C1 (amended).  For every tier and every finite strictly positive
    amount A below 2^53, the code returns exactly
    floor(floor(A / 10) * multiplier), both floors and the product taken
    in exact arithmetic with multipliers 1, 1, 12/10 and 2; and
    calcPointsWithStatus gives 10, 10, 12, 20 for the four tiers at 100
    and 0 for GOLD at 9. *)
Theorem calcPoints_exact_below_2_53 :
  (forall (t : Tier) (A : Num.number),
      Num.wf A -> Num.isFinite A = true ->
      Num.lt Num.pzero A = true -> Num.lt A (Num.of_Z (2 ^ 53)) = true ->
      let n := calculatePoints t (Num.to_Q A) in
      calcPointsWithStatus (tier_name t) A = Num.of_Z n /\
      (Num.to_Q (calcPointsWithStatus (tier_name t) A) == inject_Z n)%Q /\
      0 <= n) /\
  calcPointsWithStatus "BRONZE" (Num.of_Z 100) = Num.of_Z 10 /\
  calcPointsWithStatus "SILVER" (Num.of_Z 100) = Num.of_Z 10 /\
  calcPointsWithStatus "GOLD" (Num.of_Z 100) = Num.of_Z 12 /\
  calcPointsWithStatus "PLATINUM" (Num.of_Z 100) = Num.of_Z 20 /\
  calcPointsWithStatus "GOLD" (Num.of_Z 9) = Num.of_Z 0.
Proof.
  split; [|repeat split; vm_compute; reflexivity].
  intros t A Hw Hf Hpos Hlt n.
  destruct (positive_finite A Hf Hpos) as [Hn _].
  pose proof (repr_units A Hw) as Hr.
  assert (H53 : units A < 2 ^ 53 * 2 ^ 1074).
  { rewrite of_Z_scaled in Hlt by lia.
    pose proof (repr_int (2 ^ 53) ltac:(lia)) as Hr53.
    rewrite lt_units in Hlt by (auto using of_scaled_wf, of_scaled_nonneg).
    rewrite units_of_scaled in Hlt by auto.
    apply Z.ltb_lt in Hlt. exact Hlt. }
  destruct (calc_award t A Hw Hn) as [Hc _].
  destruct (award_exact t (units A) Hr H53) as [Ha Hp]. cbv zeta in Ha, Hp.
  rewrite <- (calculatePoints_eq t A Hw Hn) in Ha, Hp. fold n in Ha, Hp.
  rewrite Hc, Ha.
  assert (H1074 : 0 < 2 ^ 1074) by (apply pow2_gt0; lia).
  pose proof (repr_int n Hp) as Hrn.
  split; [|split]; try lia.
  - symmetry. apply of_Z_scaled. exact Hp.
  - apply to_Q_of_scaled_int; auto. lia.
Qed.

Lemma calcPoints_exact_below_2_53_witness :
  Num.wf (Num.of_Z 1234) /\ Num.isFinite (Num.of_Z 1234) = true /\
  Num.lt Num.pzero (Num.of_Z 1234) = true /\
  Num.lt (Num.of_Z 1234) (Num.of_Z (2 ^ 53)) = true /\
  calcPointsWithStatus (tier_name GOLD) (Num.of_Z 1234)
  = Num.of_Z (calculatePoints GOLD (Num.to_Q (Num.of_Z 1234))).
Proof.
  split; [reflexivity|]. split; [reflexivity|].
  split; [reflexivity|]. split; [reflexivity|].
  apply (proj1 calcPoints_exact_below_2_53 GOLD (Num.of_Z 1234));
    reflexivity.
Defined.

(** C5.  For every tier and all finite strictly positive amounts
    A1 <= A2, the awards are non-negative integers and the award of A1 is
    at most the award of A2. *)
Theorem calcPoints_nonneg_monotone (t : Tier) (A1 A2 : Num.number) :
  Num.wf A1 -> Num.wf A2 ->
  Num.isFinite A1 = true -> Num.isFinite A2 = true ->
  Num.lt Num.pzero A1 = true -> Num.le A1 A2 = true ->
  let r1 := calcPointsWithStatus (tier_name t) A1 in
  let r2 := calcPointsWithStatus (tier_name t) A2 in
  (exists n1, 0 <= n1 /\ Num.isFinite r1 = true /\
              (Num.to_Q r1 == inject_Z n1)%Q) /\
  (exists n2, 0 <= n2 /\ Num.isFinite r2 = true /\
              (Num.to_Q r2 == inject_Z n2)%Q) /\
  Num.le r1 r2 = true.
Proof.
  intros Hw1 Hw2 Hf1 Hf2 Hpos Hle r1 r2.
  destruct (positive_finite A1 Hf1 Hpos) as [Hn1 Hfin1].
  pose proof (le_positive_finite A1 A2 Hfin1 Hf2 Hle) as Hn2.
  destruct (calc_award t A1 Hw1 Hn1) as [Hc1 Hr1].
  destruct (calc_award t A2 Hw2 Hn2) as [Hc2 Hr2].
  unfold r1, r2. rewrite Hc1, Hc2.
  assert (H1074 : 0 < 2 ^ 1074) by (apply pow2_gt0; lia).
  assert (Hint : forall a, repr (award (tier_units t) a) ->
            exists n, 0 <= n /\
              Num.isFinite (of_scaled false (award (tier_units t) a)) = true /\
              (Num.to_Q (of_scaled false (award (tier_units t) a))
               == inject_Z n)%Q).
  { intros a Hr.
    remember (award (tier_units t) a / 2 ^ 1074) as n eqn:En.
    assert (Hn : 0 <= n).
    { subst n. apply Z.div_pos; try lia. destruct Hr; lia. }
    assert (He : award (tier_units t) a = n * 2 ^ 1074).
    { subst n. unfold award. set (v := RN _ _). unfold ufloor.
      rewrite Z.div_mul by lia. reflexivity. }
    exists n. rewrite He in Hr |- *.
    destruct (to_Q_of_scaled_int _ Hn Hr) as [Hq Hfin].
    repeat split; auto. }
  split; [apply Hint; auto|]. split; [apply Hint; auto|].
  rewrite le_units by (auto using of_scaled_wf, of_scaled_nonneg).
  rewrite !units_of_scaled by auto.
  apply Z.leb_le. apply award_mono.
  - destruct t; unfold tier_units; lia.
  - rewrite le_units in Hle by auto. apply Z.leb_le in Hle.
    pose proof (repr_units A1 Hw1) as [? _]. lia.
Qed.

Lemma calcPoints_nonneg_monotone_witness :
  Num.le (calcPointsWithStatus (tier_name GOLD) (Num.of_Z 95))
         (calcPointsWithStatus (tier_name GOLD) (Num.of_Z 100)) = true.
Proof.
  apply (calcPoints_nonneg_monotone GOLD (Num.of_Z 95) (Num.of_Z 100));
    reflexivity.
Defined.





(** * Tier Promotion Evaluator *)

Lemma applyStatusUpgrade_eq now c :
  applyStatusUpgrade now c
  = match upgrade_status (Num.ge (points c) (Num.of_Z 1000))
            (Num.ge (points c) (Num.of_Z 750))
            (Num.ge (points c) (Num.of_Z 500)) (status c) with
    | Some s' => set_lastStatusChange (set_status c s') now
    | None => c
    end.
Proof.
  unfold applyStatusUpgrade, upgrade_status.
  destruct (_ && negb _); [reflexivity|].
  destruct (_ && (_ || _)); [reflexivity|].
  destruct (_ && _); reflexivity.
Qed.

Ltac string_cases s :=
  destruct (String.eqb_spec s "PLATINUM");
  destruct (String.eqb_spec s "SILVER");
  destruct (String.eqb_spec s "BRONZE");
  subst; try discriminate.

Lemma upgrade_status_changes g1 g2 g3 s s' :
  upgrade_status g1 g2 g3 s = Some s' -> s' <> s.
Proof.
  unfold upgrade_status. string_cases s;
    destruct g1, g2, g3; cbn; intros H; inversion H; subst; congruence.
Qed.

Lemma upgrade_status_idem g1 g2 g3 s s' :
  upgrade_status g1 g2 g3 s = Some s' -> upgrade_status g1 g2 g3 s' = None.
Proof.
  unfold upgrade_status. string_cases s;
    destruct g1, g2, g3; cbn; intros H; inversion H; subst; reflexivity.
Qed.

Lemma upgrade_status_tier g1 g2 g3 t s' :
  upgrade_status g1 g2 g3 (tier_name t) = Some s' ->
  exists t', s' = tier_name t' /\ (tier_rank t < tier_rank t')%nat.
Proof.
  destruct t, g1, g2, g3; cbn; intros H; inversion H;
    solve [ exists PLATINUM; split; [reflexivity | cbn; lia]
          | exists GOLD; split; [reflexivity | cbn; lia]
          | exists SILVER; split; [reflexivity | cbn; lia] ].
Qed.

(** C2.  For every tier and every non-negative integer points value the
    code applies the ordered first-match rules: PLATINUM at 1000 or more
    unless already PLATINUM, else GOLD at 750 or more from SILVER or
    BRONZE, else SILVER at 500 or more from BRONZE, else no change; a rule
    that fires changes the status and stamps lastStatusChange, otherwise
    the record is returned as it is.  BRONZE at 499 and GOLD at 800 are
    unchanged; BRONZE at 500 becomes SILVER, SILVER at 750 GOLD and GOLD
    at 1000 PLATINUM. *)
Theorem applyStatusUpgrade_rules :
  (forall (now : string) (c : Customer) (t : Tier) (n : Z),
      status c = tier_name t ->
      Num.wf (points c) -> Num.isFinite (points c) = true ->
      (Num.to_Q (points c) == inject_Z n)%Q -> 0 <= n ->
      let c' := applyStatusUpgrade now c in
      status c' = tier_name (fst (evaluatePromotion t n)) /\
      (snd (evaluatePromotion t n) = true ->
       status c' <> status c /\ lastStatusChange c' = Some now) /\
      (snd (evaluatePromotion t n) = false -> c' = c)) /\
  (forall (now : string) (c : Customer),
      let at_ s p := set_points (set_status c s) (Num.of_Z p) in
      applyStatusUpgrade now (at_ "BRONZE" 499) = at_ "BRONZE" 499 /\
      applyStatusUpgrade now (at_ "BRONZE" 500)
      = set_lastStatusChange (at_ "SILVER" 500) now /\
      applyStatusUpgrade now (at_ "SILVER" 750)
      = set_lastStatusChange (at_ "GOLD" 750) now /\
      applyStatusUpgrade now (at_ "GOLD" 1000)
      = set_lastStatusChange (at_ "PLATINUM" 1000) now /\
      applyStatusUpgrade now (at_ "GOLD" 800) = at_ "GOLD" 800).
Proof.
  split; [|intros now c; repeat split; reflexivity].
  intros now c t n Hs Hw Hf Hq Hn c'. unfold c'.
  rewrite applyStatusUpgrade_eq.
  rewrite !(ge_int (points c) n) by (auto; lia).
  rewrite Hs. unfold evaluatePromotion, upgrade_status.
  destruct t; cbn [tier_name Tier_eqb negb andb orb String.eqb Ascii.eqb
                     Bool.eqb];
    destruct (Z.leb_spec 1000 n); destruct (Z.leb_spec 750 n);
    destruct (Z.leb_spec 500 n); try lia;
    cbn [andb orb negb fst snd status lastStatusChange set_status
           set_lastStatusChange tier_name];
    rewrite ?Hs;
    (split; [reflexivity|]); split; intros E; try discriminate E;
    try reflexivity; split; try reflexivity; discriminate.
Qed.

Lemma applyStatusUpgrade_rules_witness :
  status (applyStatusUpgrade "2024-05-01T10:00:00.000Z"
            (mkCustomer (Num.of_Z 7) "A" "SILVER" (Num.of_Z 760) "" None None
               "" true None))
  = tier_name (fst (evaluatePromotion SILVER 760)).
Proof.
  apply (proj1 applyStatusUpgrade_rules "2024-05-01T10:00:00.000Z"
           (mkCustomer (Num.of_Z 7) "A" "SILVER" (Num.of_Z 760) "" None None
              "" true None) SILVER 760);
    try reflexivity. lia.
Defined.

(** C3.  The tier after [applyStatusUpgrade] is never below the tier
    before, in the order BRONZE < SILVER < GOLD < PLATINUM, whatever the
    points value. *)
Theorem applyStatusUpgrade_never_demotes
    (now : string) (c : Customer) (t : Tier) :
  status c = tier_name t ->
  exists t', status (applyStatusUpgrade now c) = tier_name t' /\
             (tier_rank t <= tier_rank t')%nat.
Proof.
  intros Hs. rewrite applyStatusUpgrade_eq, Hs.
  destruct (upgrade_status _ _ _ (tier_name t)) as [s'|] eqn:E.
  - destruct (upgrade_status_tier _ _ _ _ _ E) as (t' & -> & Hlt).
    exists t'. split; [reflexivity | lia].
  - exists t. split; [exact Hs | lia].
Qed.

Lemma applyStatusUpgrade_never_demotes_witness :
  exists t', status (applyStatusUpgrade "2024-05-01T10:00:00.000Z"
                       (mkCustomer (Num.of_Z 7) "A" "GOLD" (Num.of_Z 600) ""
                          None None "" true None)) = tier_name t' /\
             (tier_rank GOLD <= tier_rank t')%nat.
Proof.
  apply (applyStatusUpgrade_never_demotes "2024-05-01T10:00:00.000Z"
           (mkCustomer (Num.of_Z 7) "A" "GOLD" (Num.of_Z 600) "" None None
              "" true None) GOLD).
  reflexivity.
Defined.

(** C4.  Evaluating again the record a first evaluation returned changes
    nothing: status and lastStatusChange stay as the first call left
    them, whatever the two clock readings. *)
Theorem applyStatusUpgrade_idempotent (now now' : string) (c : Customer) :
  applyStatusUpgrade now' (applyStatusUpgrade now c)
  = applyStatusUpgrade now c.
Proof.
  rewrite (applyStatusUpgrade_eq now c).
  destruct (upgrade_status _ _ _ (status c)) as [s'|] eqn:E.
  - rewrite applyStatusUpgrade_eq.
    cbn [points status set_status set_lastStatusChange].
    rewrite (upgrade_status_idem _ _ _ _ _ E). reflexivity.
  - rewrite applyStatusUpgrade_eq, E. reflexivity.
Qed.




(** C10.  [applyStatusUpgrade] leaves every field other than status and
    lastStatusChange as it was; either the status changes and
    lastStatusChange is stamped with the clock reading, or both keep their
    prior values. *)
Theorem applyStatusUpgrade_frame (now : string) (c : Customer) :
  let c' := applyStatusUpgrade now c in
  id c' = id c /\ name c' = name c /\ points c' = points c /\
  lastPurchaseDate c' = lastPurchaseDate c /\ email c' = email c /\
  preferredStore c' = preferredStore c /\ joinDate c' = joinDate c /\
  notifications c' = notifications c /\
  ((status c' <> status c /\ lastStatusChange c' = Some now) \/
   (status c' = status c /\ lastStatusChange c' = lastStatusChange c)).
Proof.
  cbv zeta. rewrite applyStatusUpgrade_eq.
  destruct (upgrade_status _ _ _ (status c)) as [s'|] eqn:E.
  - repeat split. left. split; [|reflexivity].
    apply (upgrade_status_changes _ _ _ _ _ E).
  - repeat split. right. split; reflexivity.
Qed.

(** * The purchase handler *)

Lemma invalid_amount_test amount :
  negb (Num.isFinite amount) || Num.le amount Num.pzero
  = invalid_amount amount.
Proof. destruct amount as [[]|[]| |[] m e]; reflexivity. Qed.

Lemma purchase_eq now1 now2 customerId amount cs :
  purchase now1 now2 customerId amount cs
  = match find customerId cs with
    | None => (NotFound, cs)
    | Some customer =>
        if invalid_amount amount then (InvalidAmount, cs)
        else
          let awardedPoints :=
            calcPointsWithStatus (status customer) amount in
          let c3 :=
            applyStatusUpgrade now2
              (set_lastPurchaseDate
                 (set_points customer
                    (Num.add (points customer) awardedPoints)) now1) in
          (Ok c3 awardedPoints (get_property STATUS_MULTIPLIER (status c3)),
           write_back customerId c3 cs)
    end.
Proof.
  unfold purchase. destruct (find customerId cs); [|reflexivity].
  rewrite invalid_amount_test. reflexivity.
Qed.

(** C6 (as stated, refuted).  With an unknown customer id the request is
    answered "not found" before the amount is looked at: the amount -5 is
    negative and yet no InvalidAmount error is raised. *)
Lemma purchase_unknown_customer_not_InvalidAmount :
  invalid_amount (Num.of_Z (-5)) = true /\
  fst (purchase "2024-05-01T10:00:00.000Z" "2024-05-01T10:00:00.001Z"
         (Num.of_Z 99) (Num.of_Z (-5)) customers) = NotFound.
Proof. split; reflexivity. Qed.

(** C6 (amended).  For a request whose customer id matches a stored
    customer, the purchase fails with InvalidAmount exactly when the
    amount is non-finite, zero or negative; for every such amount, known
    customer or not, the store is left as it was and no award is returned;
    and for every finite strictly positive amount no InvalidAmount error
    is raised. *)
Theorem purchase_InvalidAmount_iff :
  (forall now1 now2 customerId amount cs customer,
      find customerId cs = Some customer ->
      (fst (purchase now1 now2 customerId amount cs) = InvalidAmount
       <-> invalid_amount amount = true)) /\
  (forall now1 now2 customerId amount cs,
      invalid_amount amount = true ->
      snd (purchase now1 now2 customerId amount cs) = cs /\
      forall c a m,
        fst (purchase now1 now2 customerId amount cs) <> Ok c a m) /\
  (forall now1 now2 customerId amount cs,
      invalid_amount amount = false ->
      fst (purchase now1 now2 customerId amount cs) <> InvalidAmount).
Proof.
  split; [|split].
  - intros now1 now2 customerId amount cs customer Hfind.
    rewrite purchase_eq, Hfind.
    destruct (invalid_amount amount); split; intros H;
      try reflexivity; discriminate H.
  - intros now1 now2 customerId amount cs Hi.
    rewrite purchase_eq, Hi.
    destruct (find customerId cs); split; try reflexivity;
      intros c' a m; discriminate.
  - intros now1 now2 customerId amount cs Hi.
    rewrite purchase_eq, Hi.
    destruct (find customerId cs); discriminate.
Qed.

Lemma purchase_InvalidAmount_iff_witness :
  fst (purchase "2024-05-01T10:00:00.000Z" "2024-05-01T10:00:00.001Z"
         (Num.of_Z 1) (Num.of_Z 0) customers) = InvalidAmount.
Proof.
  apply (proj1 purchase_InvalidAmount_iff
           "2024-05-01T10:00:00.000Z" "2024-05-01T10:00:00.001Z"
           (Num.of_Z 1) (Num.of_Z 0) customers
           (mkCustomer (Num.of_Z 1) "John Smith" "SILVER" (Num.of_Z 450)
              "2024-02-15" None (Some "Downtown") "2023-06-15" true None));
    reflexivity.
Defined.

(** C9.  When the customer id matches no stored customer, or the amount
    is non-finite, zero or negative, the request is rejected and the store
    after the request is the store before it; and whenever the response is
    a rejection the store is unchanged. *)
Theorem purchase_rejected_store_unchanged
    (now1 now2 : string) (customerId amount : Num.number)
    (cs : list Customer) :
  (find customerId cs = None \/ invalid_amount amount = true ->
   (fst (purchase now1 now2 customerId amount cs) = NotFound \/
    fst (purchase now1 now2 customerId amount cs) = InvalidAmount) /\
   snd (purchase now1 now2 customerId amount cs) = cs) /\
  (fst (purchase now1 now2 customerId amount cs) = NotFound \/
   fst (purchase now1 now2 customerId amount cs) = InvalidAmount ->
   snd (purchase now1 now2 customerId amount cs) = cs).
Proof.
  rewrite purchase_eq. split.
  - intros [H|H].
    + rewrite H. split; [left|]; reflexivity.
    + rewrite H. destruct (find customerId cs);
        (split; [|reflexivity]); [right | left]; reflexivity.
  - destruct (find customerId cs); [|reflexivity].
    destruct (invalid_amount amount); [reflexivity|].
    cbn. intros [H|H]; discriminate H.
Qed.

Lemma purchase_rejected_store_unchanged_witness :
  snd (purchase "2024-05-01T10:00:00.000Z" "2024-05-01T10:00:00.001Z"
         (Num.of_Z 99) (Num.of_Z 120) customers) = customers.
Proof.
  apply (proj1 (purchase_rejected_store_unchanged
                  "2024-05-01T10:00:00.000Z" "2024-05-01T10:00:00.001Z"
                  (Num.of_Z 99) (Num.of_Z 120) customers)).
  left. reflexivity.
Defined.

Local Close Scope string_scope.

(** ** Addition of non-negative doubles *)

Lemma of_scaled_overflow s v :
  2 ^ 2098 <= v -> of_scaled s v = S754_infinity s.
Proof.
  intros Hv. unfold of_scaled.
  assert (H0 : 0 < 2 ^ 2098) by (apply pow2_gt0; lia).
  assert (Hd : 2099 <= Zdigits2 v).
  { destruct (Z.le_gt_cases 2099 (Zdigits2 v)); auto.
    assert (v < 2 ^ 2098) by (apply Zdigits2_le_iff; lia). lia. }
  assert (HE : sexp v = Zdigits2 v - 53) by (unfold sexp; lia).
  rewrite HE.
  assert (Hq : Zdigits2 (v / 2 ^ (Zdigits2 v - 53)) = 53).
  { rewrite Zdigits2_div_pow2 by lia. lia. }
  destruct (v / 2 ^ (Zdigits2 v - 53)) as [|p|p] eqn:Eq.
  - cbn in Hq. lia.
  - unfold finish. rewrite (proj2 (Z.leb_gt _ _)) by lia. reflexivity.
  - assert (0 <= v / 2 ^ (Zdigits2 v - 53)).
    { apply Z.div_pos; try lia; apply pow2_gt0; lia. }
    lia.
Qed.

Lemma shl_align_fst m e ez :
  ez <= e -> Zpos (fst (shl_align m e ez)) = Zpos m * 2 ^ (e - ez).
Proof.
  intros H. unfold shl_align.
  destruct (ez - e) as [|d|d] eqn:Ed; cbn [fst].
  - replace (e - ez) with 0 by lia. change (2 ^ 0) with 1. lia.
  - lia.
  - rewrite iter_xO. f_equal. f_equal. lia.
Qed.

(** The sum of two non-negative doubles is the double nearest to the exact
    sum, or [+Infinity]. *)
Lemma add_scaled x y :
  Num.wf x -> Num.wf y -> nonneg x = true -> nonneg y = true ->
  Num.add x y = of_scaled false (RN (units x + units y) 1).
Proof.
  intros Hx Hy Nx Ny.
  destruct x as [[]|sx| |[] mx ex]; destruct y as [[]|sy| |[] my ey];
    try discriminate.
  - reflexivity.
  - cbn [Num.add SFadd units]. rewrite Z.add_0_l.
    rewrite <- (Z.mul_1_r (Z.pos my * 2 ^ (ey + 1074))).
    rewrite RN_exact by (try apply (repr_units _ Hy); lia).
    symmetry. apply (of_scaled_units false my ey Hy).
  - cbn [Num.add SFadd units]. rewrite Z.add_0_r.
    rewrite <- (Z.mul_1_r (Z.pos mx * 2 ^ (ex + 1074))).
    rewrite RN_exact by (try apply (repr_units _ Hx); lia).
    symmetry. apply (of_scaled_units false mx ex Hx).
  - pose proof (wf_finite _ _ _ Hx) as (_ & Hex & _).
    pose proof (wf_finite _ _ _ Hy) as (_ & Hey & _).
    unfold Num.add, SFadd. cbn [cond_Zopp].
    set (ez := Z.min ex ey).
    pose proof (shl_align_fst mx ex ez ltac:(unfold ez; lia)) as H1.
    pose proof (shl_align_fst my ey ez ltac:(unfold ez; lia)) as H2.
    set (a := fst (shl_align mx ex ez)) in *.
    set (b := fst (shl_align my ey ez)) in *.
    change (Z.pos a + Z.pos b) with (Z.pos (a + b)).
    cbn [binary_normalize].
    rewrite binary_round_scaled by (unfold ez; lia).
    f_equal. f_equal. cbn [units].
    rewrite Pos2Z.inj_add, H1, H2, Z.mul_add_distr_r.
    rewrite <- !Z.mul_assoc, <- !Z.pow_add_r by (unfold ez; lia).
    f_equal; f_equal; f_equal; lia.
Qed.

Lemma le_finite_inf x :
  nonneg x = true -> Num.le x (S754_infinity false) = true.
Proof. destruct x as [[]|s| |[] m e]; try discriminate; reflexivity. Qed.

(** Adding a non-negative double never gives less. *)
Lemma add_ge x y :
  Num.wf x -> Num.wf y -> nonneg x = true -> nonneg y = true ->
  Num.le x (Num.add x y) = true.
Proof.
  intros Hx Hy Nx Ny. rewrite add_scaled by auto.
  pose proof (repr_units x Hx) as Rx. pose proof (repr_units y Hy) as Ry.
  assert (H0 : 0 <= units x + units y) by (destruct Rx, Ry; lia).
  destruct (Z.lt_ge_cases (RN (units x + units y) 1) (2 ^ 2098)) as [L|G].
  - pose proof (RN_repr _ 1 H0 ltac:(lia) L) as Rr.
    rewrite le_units by (auto using of_scaled_wf, of_scaled_nonneg).
    rewrite units_of_scaled by auto. apply Z.leb_le.
    apply RN_ge_repr; try lia; auto. destruct Ry; lia.
  - rewrite of_scaled_overflow by lia. apply le_finite_inf; auto.
Qed.

(** The sum of two integers is exact up to [2 ^ 53]. *)
Lemma add_int p q :
  0 <= p -> 0 <= q -> p + q <= 2 ^ 53 ->
  Num.add (Num.of_Z p) (Num.of_Z q) = Num.of_Z (p + q).
Proof.
  intros Hp Hq Hs.
  rewrite !of_Z_scaled by lia.
  pose proof (repr_int p ltac:(lia)) as Rp.
  pose proof (repr_int q ltac:(lia)) as Rq.
  pose proof (repr_int (p + q) ltac:(lia)) as Rs.
  rewrite add_scaled by (auto using of_scaled_wf, of_scaled_nonneg).
  rewrite !units_of_scaled by auto.
  rewrite <- Z.mul_add_distr_r.
  rewrite <- (Z.mul_1_r ((p + q) * 2 ^ 1074)) at 1.
  rewrite RN_exact by (auto; lia). reflexivity.
Qed.

(** ** Doubling *)

Lemma repr_double b : repr b -> 2 * b < 2 ^ 2098 -> repr (2 * b).
Proof.
  intros [Hb [k Hk]] Hlt. split; [lia|].
  assert (b = 0 \/ 0 < b) as [->|Hp] by lia.
  - exists 0. reflexivity.
  - assert (Hd : Zdigits2 (2 * b) = Zdigits2 b + 1).
    { rewrite Z.mul_comm. change 2 with (2 ^ 1).
      apply Zdigits2_mul_pow2; lia. }
    pose proof (Zdigits2_pos b Hp) as Hdp.
    unfold sexp in *. rewrite Hd.
    destruct (Z.le_gt_cases 53 (Zdigits2 b)) as [L|G].
    + exists k. replace (Z.max (Zdigits2 b + 1 - 53) 0)
        with (1 + Z.max (Zdigits2 b - 53) 0) by lia.
      rewrite Z.pow_add_r by lia. change (2 ^ 1) with 2. lia.
    + exists (2 * b). replace (Z.max (Zdigits2 b + 1 - 53) 0) with 0 by lia.
      change (2 ^ 0) with 1. lia.
Qed.

Lemma ufloor_idem v : ufloor (ufloor v) = ufloor v.
Proof. unfold ufloor at 2. apply ufloor_int. Qed.

Lemma ufloor_double v : ufloor (2 * ufloor v) = 2 * ufloor v.
Proof.
  unfold ufloor at 2 3.
  replace (2 * (v / 2 ^ 1074 * 2 ^ 1074)) with (2 * (v / 2 ^ 1074) * 2 ^ 1074)
    by ring.
  apply ufloor_int.
Qed.

(** The base points, in units: representable and at most [2 ^ 2095]. *)
Lemma base_repr a :
  repr a -> repr (ufloor (RN a 10)) /\ ufloor (RN a 10) <= 2 ^ 2095.
Proof.
  intros Ha. destruct Ha as [Hb Hk].
  assert (Hv1 : RN a 10 <= 2 ^ 2095).
  { apply RN_le_repr; try lia. apply pow2_repr; lia. }
  assert (H95 : 2 ^ 2095 < 2 ^ 2098) by (apply pow2_lt; lia).
  assert (Hr1 : repr (RN a 10)) by (apply RN_repr; lia).
  pose proof (ufloor_le (RN a 10) ltac:(destruct Hr1; lia)).
  split; [apply repr_ufloor; auto | lia].
Qed.

Lemma award_one a : repr a -> award (2 ^ 1074) a = ufloor (RN a 10).
Proof.
  intros Ha. destruct (base_repr a Ha) as [Hr _]. unfold award.
  rewrite RN_exact by (auto; apply pow2_gt0; lia).
  apply ufloor_idem.
Qed.

Lemma award_two a :
  repr a -> award (2 * 2 ^ 1074) a = 2 * ufloor (RN a 10).
Proof.
  intros Ha. destruct (base_repr a Ha) as [Hr Hb]. unfold award.
  replace (ufloor (RN a 10) * (2 * 2 ^ 1074))
    with (2 * ufloor (RN a 10) * 2 ^ 1074) by ring.
  assert (H96 : 2 * 2 ^ 2095 < 2 ^ 2098) by (vm_compute; reflexivity).
  rewrite RN_exact.
  - apply ufloor_double.
  - apply repr_double; auto. lia.
  - apply pow2_gt0; lia.
Qed.

Lemma award_units_mono u1 u2 a :
  0 <= u1 <= u2 -> 0 <= a -> award u1 a <= award u2 a.
Proof.
  intros Hu Ha. unfold award. apply ufloor_mono.
  assert (H1074 : 0 < 2 ^ 1074) by (apply pow2_gt0; lia).
  pose proof (RN_nonneg a 10 Ha ltac:(lia)).
  pose proof (ufloor_le (RN a 10) ltac:(lia)).
  apply RN_mono; try nia.
Qed.

Lemma tier_units_pos t : 0 < tier_units t.
Proof. destruct t; unfold tier_units; lia. Qed.

Lemma tier_units_rank t1 t2 :
  (tier_rank t1 <= tier_rank t2)%nat -> tier_units t1 <= tier_units t2.
Proof.
  destruct t1, t2; cbn [tier_rank]; intros H; try lia;
    unfold tier_units; lia.
Qed.

Local Open Scope string_scope.

(** * The store: find and write back *)

Lemma find_modify customerId f cs :
  match find customerId cs with
  | None => cs
  | Some c => write_back customerId (f c) cs
  end = modify customerId f cs.
Proof.
  induction cs as [|c cs IH]; cbn [find write_back modify]; auto.
  destruct (Num.strict_eq (id c) customerId); auto.
  rewrite <- IH. destruct (find customerId cs); reflexivity.
Qed.

Lemma find_split customerId cs c :
  find customerId cs = Some c ->
  exists pre post,
    cs = (pre ++ c :: post)%list /\ Num.strict_eq (id c) customerId = true /\
    Forall (fun c' => Num.strict_eq (id c') customerId = false) pre.
Proof.
  induction cs as [|c0 cs IH]; cbn [find]; [discriminate|].
  destruct (Num.strict_eq (id c0) customerId) eqn:E; intros H.
  - injection H as <-. exists [], cs. repeat split; auto.
  - destruct (IH H) as (pre & post & -> & Hc & Hpre).
    exists (c0 :: pre), post. repeat split; auto.
Qed.

Lemma write_back_app customerId pre c post c' :
  Forall (fun c0 => Num.strict_eq (id c0) customerId = false) pre ->
  Num.strict_eq (id c) customerId = true ->
  write_back customerId c' (pre ++ c :: post)%list = (pre ++ c' :: post)%list.
Proof.
  intros Hpre Hc. induction Hpre as [|c0 pre H0 _ IH]; cbn [app write_back].
  - rewrite Hc. reflexivity.
  - rewrite H0, IH. reflexivity.
Qed.

Lemma find_None customerId cs :
  find customerId cs = None <->
  Forall (fun c => Num.strict_eq (id c) customerId = false) cs.
Proof.
  induction cs as [|c cs IH]; cbn [find].
  - split; auto.
  - destruct (Num.strict_eq (id c) customerId) eqn:E; split; intros H.
    + discriminate.
    + inversion H; subst. congruence.
    + constructor; auto. apply IH; auto.
    + inversion H; subst. apply IH; auto.
Qed.

Lemma strict_eq_NaN x : Num.strict_eq x Num.NaN = false.
Proof. destruct x as [s|s| |s m e]; reflexivity. Qed.

Lemma modify_commute i1 i2 f g cs :
  (forall c, id (f c) = id c) -> (forall c, id (g c) = id c) ->
  (forall c, f (g c) = g (f c)) ->
  modify i1 f (modify i2 g cs) = modify i2 g (modify i1 f cs).
Proof.
  intros Hf Hg Hfg. induction cs as [|c cs IH]; cbn [modify]; auto.
  destruct (Num.strict_eq (id c) i1) eqn:E1;
    destruct (Num.strict_eq (id c) i2) eqn:E2; cbn [modify];
    rewrite ?Hf, ?Hg, ?E1, ?E2; try reflexivity.
  - rewrite Hfg. reflexivity.
  - rewrite IH. reflexivity.
Qed.

Lemma modify_modify i f cs :
  (forall c, id (f c) = id c) ->
  modify i f (modify i f cs) = modify i (fun c => f (f c)) cs.
Proof.
  intros Hf. induction cs as [|c cs IH]; cbn [modify]; auto.
  destruct (Num.strict_eq (id c) i) eqn:E; cbn [modify].
  - rewrite Hf, E. reflexivity.
  - rewrite E, IH. reflexivity.
Qed.

Lemma modify_ext i f g cs :
  (forall c, f c = g c) -> modify i f cs = modify i g cs.
Proof.
  intros H. induction cs as [|c cs IH]; cbn [modify]; auto.
  rewrite H, IH. reflexivity.
Qed.

Lemma modify_id i cs : modify i (fun c => c) cs = cs.
Proof.
  induction cs as [|c cs IH]; cbn [modify]; auto.
  rewrite IH. destruct (Num.strict_eq (id c) i); reflexivity.
Qed.

(** ** The handlers as modifications of the store *)

Lemma applyStatusUpgrade_id now c : id (applyStatusUpgrade now c) = id c.
Proof.
  rewrite applyStatusUpgrade_eq.
  destruct (upgrade_status _ _ _ _); reflexivity.
Qed.

Lemma purchase_update_id now1 now2 amount c :
  id (purchase_update now1 now2 amount c) = id c.
Proof. unfold purchase_update. rewrite applyStatusUpgrade_id. reflexivity. Qed.

Lemma apply_preferences_id body c : id (apply_preferences body c) = id c.
Proof.
  unfold apply_preferences.
  destruct (get_field body "notifications") as [[]|];
    destruct (get_field body "preferredStore") as [[]|];
    destruct (get_field body "email") as [[]|]; reflexivity.
Qed.

Lemma purchase_store now1 now2 customerId amount cs :
  snd (purchase now1 now2 customerId amount cs)
  = if invalid_amount amount then cs
    else modify customerId (purchase_update now1 now2 amount) cs.
Proof.
  rewrite purchase_eq, <- find_modify.
  destruct (find customerId cs); destruct (invalid_amount amount);
    reflexivity.
Qed.

Lemma patch_store customerId body cs :
  snd (patch_preferences customerId body cs)
  = modify customerId (apply_preferences body) cs.
Proof.
  unfold patch_preferences. rewrite <- find_modify.
  destruct (find customerId cs); reflexivity.
Qed.

Lemma purchase_update_preferences now1 now2 amount body c :
  purchase_update now1 now2 amount (apply_preferences body c)
  = apply_preferences body (purchase_update now1 now2 amount c).
Proof.
  unfold purchase_update. rewrite !applyStatusUpgrade_eq.
  unfold apply_preferences.
  destruct (get_field body "notifications") as [[]|];
    destruct (get_field body "preferredStore") as [[]|];
    destruct (get_field body "email") as [[]|];
    cbn [points status set_points set_lastPurchaseDate set_notifications
           set_preferredStore set_email];
    destruct (upgrade_status _ _ _ (status c)); reflexivity.
Qed.

Lemma apply_preferences_twice body c :
  apply_preferences body (apply_preferences body c)
  = apply_preferences body c.
Proof.
  unfold apply_preferences.
  destruct (get_field body "notifications") as [[]|];
    destruct (get_field body "preferredStore") as [[]|];
    destruct (get_field body "email") as [[]|]; reflexivity.
Qed.

(** * Further properties of the tier upgrade *)

Lemma upgrade_status_int t n :
  upgrade_status (1000 <=? n)%Z (750 <=? n)%Z (500 <=? n)%Z (tier_name t)
  = if Tier_eqb (tier_max t (qualified n)) t then None
    else Some (tier_name (tier_max t (qualified n))).
Proof.
  unfold qualified.
  destruct t; destruct (Z.leb_spec 1000 n); destruct (Z.leb_spec 750 n);
    destruct (Z.leb_spec 500 n); try lia; reflexivity.
Qed.

Lemma upgrade_status_evaluate t n :
  upgrade_status (1000 <=? n)%Z (750 <=? n)%Z (500 <=? n)%Z (tier_name t)
  = if snd (evaluatePromotion t n)
    then Some (tier_name (fst (evaluatePromotion t n))) else None.
Proof.
  unfold evaluatePromotion.
  destruct t; destruct (Z.leb_spec 1000 n); destruct (Z.leb_spec 750 n);
    destruct (Z.leb_spec 500 n); try lia; reflexivity.
Qed.

Lemma applyStatusUpgrade_int now c t n :
  status c = tier_name t ->
  Num.wf (points c) -> Num.isFinite (points c) = true ->
  (Num.to_Q (points c) == inject_Z n)%Q -> 0 <= n ->
  applyStatusUpgrade now c
  = match upgrade_status (1000 <=? n)%Z (750 <=? n)%Z (500 <=? n)%Z
            (tier_name t) with
    | Some s' => set_lastStatusChange (set_status c s') now
    | None => c
    end.
Proof.
  intros Hs Hw Hf Hq Hn. rewrite applyStatusUpgrade_eq.
  rewrite !(ge_int (points c) n) by (auto; lia).
  rewrite Hs. reflexivity.
Qed.

Lemma qualified_mono n1 n2 :
  n1 <= n2 -> (tier_rank (qualified n1) <= tier_rank (qualified n2))%nat.
Proof.
  intros H. unfold qualified.
  destruct (Z.leb_spec 1000 n1); destruct (Z.leb_spec 750 n1);
    destruct (Z.leb_spec 500 n1); destruct (Z.leb_spec 1000 n2);
    destruct (Z.leb_spec 750 n2); destruct (Z.leb_spec 500 n2);
    cbn [tier_rank]; lia.
Qed.

(** X1.  For a customer on a recognised tier with a non-negative integer
    number of points, the status after [applyStatusUpgrade] is the higher
    of the current tier and the tier the points qualify for (PLATINUM from
    1000, GOLD from 750, SILVER from 500). *)
Theorem applyStatusUpgrade_higher_of_two
    (now : string) (c : Customer) (t : Tier) (n : Z) :
  status c = tier_name t ->
  Num.wf (points c) -> Num.isFinite (points c) = true ->
  (Num.to_Q (points c) == inject_Z n)%Q -> 0 <= n ->
  status (applyStatusUpgrade now c) = tier_name (tier_max t (qualified n)).
Proof.
  intros Hs Hw Hf Hq Hn.
  rewrite (applyStatusUpgrade_int now c t n) by auto.
  rewrite upgrade_status_int.
  destruct (Tier_eqb (tier_max t (qualified n)) t) eqn:E; [|reflexivity].
  rewrite Hs. destruct t, (tier_max _ _); try discriminate; reflexivity.
Qed.

Lemma applyStatusUpgrade_higher_of_two_witness :
  status (applyStatusUpgrade "2024-05-01T10:00:00.000Z"
            (mkCustomer (Num.of_Z 7) "A" "BRONZE" (Num.of_Z 800) "" None None
               "" true None))
  = tier_name (tier_max BRONZE (qualified 800)).
Proof.
  apply (applyStatusUpgrade_higher_of_two "2024-05-01T10:00:00.000Z"
           (mkCustomer (Num.of_Z 7) "A" "BRONZE" (Num.of_Z 800) "" None None
              "" true None) BRONZE 800);
    try reflexivity. lia.
Defined.

(** X2.  More points never give a lower status: for two customers on the
    same tier with integer points n1 <= n2, the status after
    [applyStatusUpgrade] of the second is at least that of the first. *)
Theorem applyStatusUpgrade_monotone_in_points
    (now1 now2 : string) (c1 c2 : Customer) (t : Tier) (n1 n2 : Z) :
  status c1 = tier_name t -> status c2 = tier_name t ->
  Num.wf (points c1) -> Num.isFinite (points c1) = true ->
  (Num.to_Q (points c1) == inject_Z n1)%Q ->
  Num.wf (points c2) -> Num.isFinite (points c2) = true ->
  (Num.to_Q (points c2) == inject_Z n2)%Q ->
  0 <= n1 <= n2 ->
  exists t1 t2,
    status (applyStatusUpgrade now1 c1) = tier_name t1 /\
    status (applyStatusUpgrade now2 c2) = tier_name t2 /\
    (tier_rank t1 <= tier_rank t2)%nat.
Proof.
  intros Hs1 Hs2 Hw1 Hf1 Hq1 Hw2 Hf2 Hq2 Hn.
  exists (tier_max t (qualified n1)), (tier_max t (qualified n2)).
  split; [|split].
  - rewrite (applyStatusUpgrade_int now1 c1 t n1) by (auto; lia).
    rewrite upgrade_status_int.
    destruct (Tier_eqb (tier_max t (qualified n1)) t) eqn:E; [|reflexivity].
    rewrite Hs1. destruct t, (tier_max _ _); try discriminate; reflexivity.
  - rewrite (applyStatusUpgrade_int now2 c2 t n2) by (auto; lia).
    rewrite upgrade_status_int.
    destruct (Tier_eqb (tier_max t (qualified n2)) t) eqn:E; [|reflexivity].
    rewrite Hs2. destruct t, (tier_max _ _); try discriminate; reflexivity.
  - pose proof (qualified_mono n1 n2 ltac:(lia)) as Hm.
    unfold tier_max.
    destruct (Nat.ltb_spec (tier_rank t) (tier_rank (qualified n1)));
      destruct (Nat.ltb_spec (tier_rank t) (tier_rank (qualified n2))); lia.
Qed.

Lemma applyStatusUpgrade_monotone_in_points_witness :
  exists t1 t2,
    status (applyStatusUpgrade "a"
              (mkCustomer (Num.of_Z 7) "A" "SILVER" (Num.of_Z 600) "" None
                 None "" true None)) = tier_name t1 /\
    status (applyStatusUpgrade "b"
              (mkCustomer (Num.of_Z 8) "B" "SILVER" (Num.of_Z 900) "" None
                 None "" true None)) = tier_name t2 /\
    (tier_rank t1 <= tier_rank t2)%nat.
Proof.
  apply (applyStatusUpgrade_monotone_in_points "a" "b"
           (mkCustomer (Num.of_Z 7) "A" "SILVER" (Num.of_Z 600) "" None
              None "" true None)
           (mkCustomer (Num.of_Z 8) "B" "SILVER" (Num.of_Z 900) "" None
              None "" true None) SILVER 600 900);
    try reflexivity. lia.
Defined.

(** X3.  A status string outside the four tier names is replaced by
    PLATINUM (with a stamp) when the points are at least 1000 and is left
    alone otherwise: the GOLD and SILVER rules never apply to it. *)
Theorem applyStatusUpgrade_unrecognized_status
    (now : string) (c : Customer) :
  (forall t, status c <> tier_name t) ->
  applyStatusUpgrade now c
  = if Num.ge (points c) (Num.of_Z 1000)
    then set_lastStatusChange (set_status c "PLATINUM") now
    else c.
Proof.
  intros H. rewrite applyStatusUpgrade_eq. unfold upgrade_status.
  destruct (String.eqb_spec (status c) "PLATINUM") as [E|_];
    [destruct (H PLATINUM E)|].
  destruct (String.eqb_spec (status c) "SILVER") as [E|_];
    [destruct (H SILVER E)|].
  destruct (String.eqb_spec (status c) "BRONZE") as [E|_];
    [destruct (H BRONZE E)|].
  destruct (Num.ge (points c) (Num.of_Z 1000)); cbn [andb negb orb];
    rewrite ?andb_false_r; reflexivity.
Qed.

Lemma applyStatusUpgrade_unrecognized_status_witness :
  applyStatusUpgrade "2024-05-01T10:00:00.000Z"
    (mkCustomer (Num.of_Z 7) "A" "DIAMOND" (Num.of_Z 800) "" None None ""
       true None)
  = mkCustomer (Num.of_Z 7) "A" "DIAMOND" (Num.of_Z 800) "" None None ""
      true None.
Proof.
  apply (applyStatusUpgrade_unrecognized_status "2024-05-01T10:00:00.000Z"
           (mkCustomer (Num.of_Z 7) "A" "DIAMOND" (Num.of_Z 800) "" None
              None "" true None)).
  intros []; discriminate.
Defined.

(** * Further properties of the award *)

Lemma award_of_ten u : 2 ^ 1074 <= u -> 2 ^ 1074 <= award u (10 * 2 ^ 1074).
Proof.
  intros Hu.
  assert (H1074 : 0 < 2 ^ 1074) by (apply pow2_gt0; lia).
  apply Z.le_trans with (award (2 ^ 1074) (10 * 2 ^ 1074)).
  - rewrite award_one by (apply repr_int; lia).
    rewrite (Z.mul_comm 10), RN_exact by (try apply pow2_repr; lia).
    change (2 ^ 1074) with (1 * 2 ^ 1074) at 2. rewrite ufloor_int. lia.
  - apply award_units_mono; lia.
Qed.

Lemma tier_units_ge t : 2 ^ 1074 <= tier_units t.
Proof. destruct t; unfold tier_units; lia. Qed.

(** X4.  For every tier and every finite strictly positive amount, the
    award is zero exactly when the amount is below 10. *)
Theorem calcPoints_zero_iff_below_ten (t : Tier) (A : Num.number) :
  Num.wf A -> Num.isFinite A = true -> Num.lt Num.pzero A = true ->
  (calcPointsWithStatus (tier_name t) A = Num.pzero
   <-> Num.lt A BASE_POINT_DIVISOR = true).
Proof.
  intros Hw Hf Hpos.
  destruct (positive_finite A Hf Hpos) as [Hn _].
  pose proof (repr_units A Hw) as Hr.
  destruct (calc_award t A Hw Hn) as [Hc Hra]. rewrite Hc.
  assert (H1074 : 0 < 2 ^ 1074) by (apply pow2_gt0; lia).
  unfold BASE_POINT_DIVISOR. rewrite of_Z_scaled by lia.
  pose proof (repr_int 10 ltac:(lia)) as R10.
  rewrite lt_units by (auto using of_scaled_wf, of_scaled_nonneg).
  rewrite units_of_scaled by auto.
  destruct (Z.ltb_spec (units A) (10 * 2 ^ 1074)) as [L|G].
  - split; auto. intros _.
    destruct (award_exact t (units A) Hr ltac:(lia)) as [Ha _].
    cbv zeta in Ha. rewrite Z.div_small in Ha by (destruct Hr; lia).
    rewrite Ha. destruct t; reflexivity.
  - split; [|discriminate]. intros H0. exfalso.
    pose proof (award_of_ten (tier_units t) (tier_units_ge t)) as H1.
    pose proof (award_mono (tier_units t) (10 * 2 ^ 1074) (units A)
                  ltac:(pose proof (tier_units_pos t); lia) ltac:(lia)) as H2.
    destruct (of_scaled_finite false _ Hra ltac:(lia)) as (m & Hm & _).
    rewrite Hm in H0. discriminate H0.
Qed.

Lemma calcPoints_zero_iff_below_ten_witness :
  calcPointsWithStatus (tier_name PLATINUM) (Num.of_Z 9) = Num.pzero.
Proof.
  apply (calcPoints_zero_iff_below_ten PLATINUM (Num.of_Z 9));
    reflexivity.
Defined.

(** X5.  A higher tier never earns less: for every finite strictly
    positive amount the award of a tier is at most the award of any tier
    above it (BRONZE = SILVER <= GOLD <= PLATINUM). *)
Theorem calcPoints_monotone_in_tier (t1 t2 : Tier) (A : Num.number) :
  (tier_rank t1 <= tier_rank t2)%nat ->
  Num.wf A -> Num.isFinite A = true -> Num.lt Num.pzero A = true ->
  Num.le (calcPointsWithStatus (tier_name t1) A)
         (calcPointsWithStatus (tier_name t2) A) = true.
Proof.
  intros Hrank Hw Hf Hpos.
  destruct (positive_finite A Hf Hpos) as [Hn _].
  destruct (calc_award t1 A Hw Hn) as [-> Hr1].
  destruct (calc_award t2 A Hw Hn) as [-> Hr2].
  rewrite le_units by (auto using of_scaled_wf, of_scaled_nonneg).
  rewrite !units_of_scaled by auto.
  apply Z.leb_le. apply award_units_mono.
  - pose proof (tier_units_pos t1). pose proof (tier_units_rank _ _ Hrank).
    lia.
  - pose proof (repr_units A Hw) as [? _]. lia.
Qed.

Lemma calcPoints_monotone_in_tier_witness :
  Num.le (calcPointsWithStatus (tier_name SILVER) (Num.of_Z 95))
         (calcPointsWithStatus (tier_name GOLD) (Num.of_Z 95)) = true.
Proof.
  apply (calcPoints_monotone_in_tier SILVER GOLD (Num.of_Z 95));
    try reflexivity. cbn. lia.
Defined.

Lemma award_int_value u a :
  repr (award u a) ->
  exists n, 0 <= n /\ award u a = n * 2 ^ 1074 /\
            Num.isFinite (of_scaled false (award u a)) = true /\
            (Num.to_Q (of_scaled false (award u a)) == inject_Z n)%Q.
Proof.
  intros Hr.
  assert (H1074 : 0 < 2 ^ 1074) by (apply pow2_gt0; lia).
  remember (award u a / 2 ^ 1074) as n eqn:En.
  assert (Hn : 0 <= n).
  { subst n. apply Z.div_pos; try lia. destruct Hr; lia. }
  assert (He : award u a = n * 2 ^ 1074).
  { subst n. unfold award. set (v := RN _ _). unfold ufloor.
    rewrite Z.div_mul by lia. reflexivity. }
  exists n. rewrite He in Hr |- *.
  destruct (to_Q_of_scaled_int _ Hn Hr) as [Hq Hfin].
  repeat split; auto.
Qed.

(** X6.  For every finite strictly positive amount the PLATINUM award is
    exactly twice the BRONZE award (and both are finite). *)
Theorem calcPoints_platinum_twice_bronze (A : Num.number) :
  Num.wf A -> Num.isFinite A = true -> Num.lt Num.pzero A = true ->
  let b := calcPointsWithStatus "BRONZE" A in
  let p := calcPointsWithStatus "PLATINUM" A in
  Num.isFinite b = true /\ Num.isFinite p = true /\
  (Num.to_Q p == 2 * Num.to_Q b)%Q.
Proof.
  intros Hw Hf Hpos.
  destruct (positive_finite A Hf Hpos) as [Hn _].
  pose proof (repr_units A Hw) as Hr.
  destruct (calc_award BRONZE A Hw Hn) as [Hb Hrb].
  destruct (calc_award PLATINUM A Hw Hn) as [Hp Hrp].
  cbn [tier_name] in Hb, Hp. cbv zeta. rewrite Hb, Hp.
  destruct (award_int_value _ _ Hrb) as (nb & Hnb & Eb & Fb & Qb).
  destruct (award_int_value _ _ Hrp) as (np & Hnp & Ep & Fp & Qp).
  repeat split; auto.
  rewrite Qb, Qp.
  assert (H1074 : 0 < 2 ^ 1074) by (apply pow2_gt0; lia).
  unfold tier_units in Eb, Ep.
  rewrite award_one in Eb by auto. rewrite award_two in Ep by auto.
  assert (np = 2 * nb) as -> by nia.
  unfold Qeq. cbn [Qnum Qden inject_Z Qmult]. lia.
Qed.

Lemma calcPoints_platinum_twice_bronze_witness :
  (Num.to_Q (calcPointsWithStatus "PLATINUM" (Num.of_Z 1234))
   == 2 * Num.to_Q (calcPointsWithStatus "BRONZE" (Num.of_Z 1234)))%Q.
Proof.
  apply (calcPoints_platinum_twice_bronze (Num.of_Z 1234)); reflexivity.
Defined.

(** ** Negative amounts *)

Lemma of_scaled_negsign v : 0 <= v -> negsign (of_scaled true v) = true.
Proof.
  intros Hv. unfold of_scaled.
  pose proof (sexp_nonneg v) as HE.
  assert (0 <= v / 2 ^ sexp v).
  { apply Z.div_pos; try lia; apply pow2_gt0; lia. }
  unfold finish. destruct (v / 2 ^ sexp v); try lia; try reflexivity.
  destruct (Z.leb _ _); reflexivity.
Qed.

Lemma floor_negsign x :
  Num.wf x -> negsign x = true -> negsign (Num.floor x) = true.
Proof.
  intros Hw Hn. destruct x as [[]|[]| |[] m e]; try discriminate;
    try reflexivity.
  pose proof (wf_finite _ _ _ Hw) as (Hd & He & Hc).
  assert (Hm53 : Zpos m < 2 ^ 53) by (apply Zdigits2_le_iff; lia).
  unfold Num.floor. destruct (Z.leb_spec 0 e) as [L|G]; [reflexivity|].
  pose proof (floor_neg_k m e G) as Hk. cbv zeta in Hk.
  set (k := if Z.eqb _ _ then _ else _) in *.
  rewrite normalize_neg_scaled by lia.
  apply of_scaled_negsign.
  assert (0 < 2 ^ 1074) by (apply pow2_gt0; lia). nia.
Qed.

Lemma div_ten_negsign A :
  Num.wf A -> negsign A = true ->
  negsign (Num.div A BASE_POINT_DIVISOR) = true.
Proof.
  intros Hw Hn. rewrite ten_eq.
  destruct A as [[]|[]| |[] m e]; try discriminate; try reflexivity.
  rewrite div_scaled by (auto; reflexivity). cbn [xorb].
  apply of_scaled_negsign. apply RN_nonneg.
  - pose proof (units_pos _ _ _ Hw).
    assert (0 < 2 ^ 1074) by (apply pow2_gt0; lia). nia.
  - reflexivity.
Qed.

Lemma mul_negsign b mm em :
  Num.wf b -> negsign b = true -> Num.wf (S754_finite false mm em) ->
  negsign (Num.mul b (S754_finite false mm em)) = true /\
  Num.wf (Num.mul b (S754_finite false mm em)).
Proof.
  intros Hw Hn Hm. destruct b as [[]|[]| |[] m e]; try discriminate;
    try (split; reflexivity).
  rewrite mul_scaled by auto. cbn [xorb].
  pose proof (units_pos _ _ _ Hw) as H1.
  pose proof (units_pos _ _ _ Hm) as H2.
  assert (H1074 : 0 < 2 ^ 1074) by (apply pow2_gt0; lia).
  set (P := units (S754_finite true m e) * units (S754_finite false mm em)).
  assert (HP : 0 <= P) by (unfold P; nia).
  pose proof (RN_nonneg P (2 ^ 1074) HP H1074) as H0.
  split; [apply of_scaled_negsign; auto|].
  destruct (Z.lt_ge_cases (RN P (2 ^ 1074)) (2 ^ 2098)) as [L|G].
  - apply of_scaled_wf_any. apply RN_repr; auto.
  - rewrite of_scaled_overflow by lia. reflexivity.
Qed.

Lemma negsign_le_zero x : negsign x = true -> Num.le x Num.pzero = true.
Proof. destruct x as [[]|[]| |[] m e]; try discriminate; reflexivity. Qed.

(** X7.  A negative amount never earns a positive award: for every tier
    and every amount below zero the result of [calcPointsWithStatus] is at
    most zero (-5 gives -1 for BRONZE and -2 for GOLD).  The handler's
    guard is what keeps such amounts out. *)
Theorem calcPoints_negative_amount (t : Tier) (A : Num.number) :
  Num.wf A -> Num.lt A Num.pzero = true ->
  Num.le (calcPointsWithStatus (tier_name t) A) Num.pzero = true.
Proof.
  intros Hw Hneg.
  assert (Hn : negsign A = true).
  { destruct A as [[]|[]| |[] m e]; try discriminate; reflexivity. }
  unfold calcPointsWithStatus.
  destruct (tier_multiplier t) as (mm & em & -> & Hwm & _).
  pose proof (div_ten_wf A Hw) as Hwd.
  pose proof (div_ten_negsign A Hw Hn) as Hnd.
  destruct (floor_wf_integral _ Hwd) as [Hwf _].
  pose proof (floor_negsign _ Hwd Hnd) as Hnf.
  destruct (mul_negsign _ mm em Hwf Hnf Hwm) as [Hnm Hwmul].
  apply negsign_le_zero. apply floor_negsign; auto.
Qed.

Lemma calcPoints_negative_amount_witness :
  Num.le (calcPointsWithStatus (tier_name GOLD) (Num.of_Z (-5))) Num.pzero
  = true.
Proof.
  apply (calcPoints_negative_amount GOLD (Num.of_Z (-5))); reflexivity.
Defined.

(** * Further properties of the handlers *)

Lemma modify_map {A : Type} (g : Customer -> A) i f cs :
  (forall c, g (f c) = g c) -> map g (modify i f cs) = map g cs.
Proof.
  intros H. induction cs as [|c cs IH]; cbn [modify map]; auto.
  destruct (Num.strict_eq (id c) i); cbn [map]; rewrite ?H, ?IH; reflexivity.
Qed.

Lemma modify_find_same i f cs c :
  (forall c0, id (f c0) = id c0) ->
  find i cs = Some c -> find i (modify i f cs) = Some (f c).
Proof.
  intros Hf. induction cs as [|c0 cs IH]; cbn [find modify]; [discriminate|].
  destruct (Num.strict_eq (id c0) i) eqn:E; intros H; cbn [find].
  - injection H as <-. rewrite Hf, E. reflexivity.
  - rewrite E. auto.
Qed.

Lemma modify_find_other i j f cs :
  (forall c0, id (f c0) = id c0) ->
  (forall c, find i cs = Some c -> Num.strict_eq (id c) j = false) ->
  find j (modify i f cs) = find j cs.
Proof.
  intros Hf. induction cs as [|c0 cs IH]; cbn [find modify]; auto.
  destruct (Num.strict_eq (id c0) i) eqn:E; intros H; cbn [find].
  - rewrite Hf, (H c0 eq_refl). reflexivity.
  - destruct (Num.strict_eq (id c0) j); auto.
Qed.

Lemma invalid_amount_false amount :
  invalid_amount amount = false ->
  Num.isFinite amount = true /\ Num.lt Num.pzero amount = true /\
  nonneg amount = true.
Proof.
  destruct amount as [[]|[]| |[] m e]; try discriminate; intros _;
    repeat split.
Qed.

(** ** GET and the lookup *)

(** X8.  GET returns the first stored customer whose id is strictly equal
    to the requested id, and replies 404 exactly when no stored customer
    has that id. *)
Theorem get_customer_first_match
    (customerId : Num.number) (cs : list Customer) :
  (forall c, get_customer customerId cs = Some c ->
     exists pre post,
       cs = (pre ++ c :: post)%list /\
       Num.strict_eq (id c) customerId = true /\
       Forall (fun c' => Num.strict_eq (id c') customerId = false) pre) /\
  (get_customer customerId cs = None <->
   Forall (fun c => Num.strict_eq (id c) customerId = false) cs).
Proof.
  split.
  - intros c H. apply find_split. exact H.
  - apply find_None.
Qed.

(** X9.  When the id parameter does not parse to a number
    ([parseInt] gives NaN), every handler replies 404 and the store is left
    as it was, whatever the store, the amount and the body. *)
Theorem NaN_id_is_not_found
    (now1 now2 : string) (amount : Num.number)
    (body : list (string * json)) (cs : list Customer) :
  get_customer Num.NaN cs = None /\
  purchase now1 now2 Num.NaN amount cs = (NotFound, cs) /\
  patch_preferences Num.NaN body cs = (None, cs).
Proof.
  assert (H : find Num.NaN cs = None).
  { apply find_None. apply Forall_forall. intros c _. apply strict_eq_NaN. }
  unfold get_customer, purchase, patch_preferences. rewrite H. auto.
Qed.

(** ** The purchase handler *)

(** X10.  The reply of a purchase is decided by the lookup first and the
    amount second: 404 exactly when the id is unknown, and a success
    exactly when the id is known and the amount is finite and strictly
    positive. *)
Theorem purchase_reply_cases
    (now1 now2 : string) (customerId amount : Num.number)
    (cs : list Customer) :
  (fst (purchase now1 now2 customerId amount cs) = NotFound
   <-> find customerId cs = None) /\
  ((exists c a m, fst (purchase now1 now2 customerId amount cs) = Ok c a m)
   <-> find customerId cs <> None /\ invalid_amount amount = false).
Proof.
  rewrite purchase_eq.
  destruct (find customerId cs) as [c|]; destruct (invalid_amount amount);
    cbn [fst].
  - split; split; try discriminate.
    + intros (c0 & a & m & H). discriminate H.
    + intros [_ H]. discriminate H.
  - split; split; try discriminate.
    + intros _. split; [discriminate | reflexivity].
    + intros _. eexists _, _, _. reflexivity.
  - split; split; try reflexivity.
    + intros (c0 & a & m & H). discriminate H.
    + intros [H _]. congruence.
  - split; split; try reflexivity.
    + intros (c0 & a & m & H). discriminate H.
    + intros [H _]. congruence.
Qed.

(** X11.  A successful purchase changes exactly one entry of the store,
    the customer it found.  In that entry id, name, email, preferredStore,
    joinDate and notifications keep their values, lastPurchaseDate is the
    first clock reading, the points are the old points plus the award, and
    the award is computed with the status the customer had before the
    purchase. *)
Theorem purchase_success_frame
    (now1 now2 : string) (customerId amount : Num.number)
    (cs : list Customer) (customer : Customer) :
  find customerId cs = Some customer -> invalid_amount amount = false ->
  exists pre post c' m,
    cs = (pre ++ customer :: post)%list /\
    purchase now1 now2 customerId amount cs
    = (Ok c' (calcPointsWithStatus (status customer) amount) m,
       (pre ++ c' :: post)%list) /\
    id c' = id customer /\ name c' = name customer /\
    email c' = email customer /\
    preferredStore c' = preferredStore customer /\
    joinDate c' = joinDate customer /\
    notifications c' = notifications customer /\
    lastPurchaseDate c' = now1 /\
    points c'
    = Num.add (points customer)
        (calcPointsWithStatus (status customer) amount).
Proof.
  intros Hfind Hvalid.
  destruct (find_split _ _ _ Hfind) as (pre & post & Hcs & Hc & Hpre).
  exists pre, post, (purchase_update now1 now2 amount customer),
    (get_property STATUS_MULTIPLIER
       (status (purchase_update now1 now2 amount customer))).
  split; [exact Hcs|]. split.
  - rewrite purchase_eq, Hfind, Hvalid. cbv zeta.
    fold (purchase_update now1 now2 amount customer).
    rewrite Hcs at 1. rewrite write_back_app by auto. reflexivity.
  - unfold purchase_update. rewrite applyStatusUpgrade_eq.
    destruct (upgrade_status _ _ _ _); repeat split.
Qed.

Lemma purchase_success_frame_witness :
  exists pre post c' m,
    customers
    = (pre ++ mkCustomer (Num.of_Z 1) "John Smith" "SILVER" (Num.of_Z 450)
                "2024-02-15" None (Some "Downtown") "2023-06-15" true None
           :: post)%list /\
    purchase "a" "b" (Num.of_Z 1) (Num.of_Z 300) customers
    = (Ok c' (calcPointsWithStatus "SILVER" (Num.of_Z 300)) m,
       (pre ++ c' :: post)%list).
Proof.
  destruct (purchase_success_frame "a" "b" (Num.of_Z 1) (Num.of_Z 300)
              customers
              (mkCustomer (Num.of_Z 1) "John Smith" "SILVER" (Num.of_Z 450)
                 "2024-02-15" None (Some "Downtown") "2023-06-15" true None)
              eq_refl eq_refl)
    as (pre & post & c' & m & H1 & H2 & _).
  exists pre, post, c', m. split; assumption.
Defined.

(** X12.  After a successful purchase, GET with the same id returns the
    customer of the purchase reply. *)
Theorem purchase_then_get
    (now1 now2 : string) (customerId amount : Num.number)
    (cs : list Customer) (customer : Customer) :
  find customerId cs = Some customer -> invalid_amount amount = false ->
  exists c' a m,
    fst (purchase now1 now2 customerId amount cs) = Ok c' a m /\
    get_customer customerId (snd (purchase now1 now2 customerId amount cs))
    = Some c'.
Proof.
  intros Hfind Hvalid. unfold get_customer.
  rewrite purchase_store, Hvalid.
  rewrite (modify_find_same _ _ _ _ (purchase_update_id now1 now2 amount)
             Hfind).
  rewrite purchase_eq, Hfind, Hvalid. cbv zeta.
  eexists _, _, _. split; reflexivity.
Qed.

Lemma purchase_then_get_witness :
  exists c' a m,
    fst (purchase "a" "b" (Num.of_Z 2) (Num.of_Z 300) customers)
    = Ok c' a m /\
    get_customer (Num.of_Z 2)
      (snd (purchase "a" "b" (Num.of_Z 2) (Num.of_Z 300) customers))
    = Some c'.
Proof.
  apply (purchase_then_get "a" "b" (Num.of_Z 2) (Num.of_Z 300) customers
           (mkCustomer (Num.of_Z 2) "Jane Doe" "GOLD" (Num.of_Z 850)
              "2024-03-01" (Some "jane.doe@email.com") None "2023-01-20"
              false None));
    reflexivity.
Defined.

(** X13.  A purchase for one customer does not change what GET returns
    for an id that customer does not have. *)
Theorem purchase_leaves_other_ids
    (now1 now2 : string) (customerId amount other : Num.number)
    (cs : list Customer) :
  (forall c, find customerId cs = Some c ->
             Num.strict_eq (id c) other = false) ->
  get_customer other (snd (purchase now1 now2 customerId amount cs))
  = get_customer other cs.
Proof.
  intros H. unfold get_customer. rewrite purchase_store.
  destruct (invalid_amount amount); [reflexivity|].
  apply modify_find_other; auto. apply purchase_update_id.
Qed.

Lemma purchase_leaves_other_ids_witness :
  get_customer (Num.of_Z 2)
    (snd (purchase "a" "b" (Num.of_Z 1) (Num.of_Z 5000) customers))
  = get_customer (Num.of_Z 2) customers.
Proof.
  apply (purchase_leaves_other_ids "a" "b" (Num.of_Z 1) (Num.of_Z 5000)
           (Num.of_Z 2) customers).
  intros c H. injection H as <-. reflexivity.
Defined.

(** X14.  Neither the purchase handler nor the preferences handler adds,
    removes, reorders or re-keys a customer: the list of ids of the store
    is the same after the request. *)
Theorem handlers_preserve_ids
    (now1 now2 : string) (customerId amount : Num.number)
    (body : list (string * json)) (cs : list Customer) :
  map id (snd (purchase now1 now2 customerId amount cs)) = map id cs /\
  map id (snd (patch_preferences customerId body cs)) = map id cs.
Proof.
  rewrite purchase_store, patch_store. split.
  - destruct (invalid_amount amount); [reflexivity|].
    apply modify_map. apply purchase_update_id.
  - apply modify_map. apply apply_preferences_id.
Qed.

Lemma calc_tier_exact t A :
  Num.wf A -> Num.isFinite A = true ->
  Num.lt Num.pzero A = true -> Num.lt A (Num.of_Z (2 ^ 53)) = true ->
  calcPointsWithStatus (tier_name t) A
  = Num.of_Z (calculatePoints t (Num.to_Q A)) /\
  0 <= calculatePoints t (Num.to_Q A) <= 2 ^ 53.
Proof.
  intros Hw Hf Hpos Hlt.
  destruct (positive_finite A Hf Hpos) as [Hn _].
  pose proof (repr_units A Hw) as Hr.
  assert (H53 : units A < 2 ^ 53 * 2 ^ 1074).
  { rewrite of_Z_scaled in Hlt by lia.
    pose proof (repr_int (2 ^ 53) ltac:(lia)) as Hr53.
    rewrite lt_units in Hlt by (auto using of_scaled_wf, of_scaled_nonneg).
    rewrite units_of_scaled in Hlt by auto.
    apply Z.ltb_lt in Hlt. exact Hlt. }
  destruct (calc_award t A Hw Hn) as [Hc _].
  destruct (award_exact t (units A) Hr H53) as [Ha Hp]. cbv zeta in Ha, Hp.
  rewrite <- (calculatePoints_eq t A Hw Hn) in Ha, Hp.
  split; [|exact Hp].
  rewrite Hc, Ha. symmetry. apply of_Z_scaled. exact Hp.
Qed.

Lemma of_Z_int n :
  0 <= n <= 2 ^ 53 ->
  Num.wf (Num.of_Z n) /\ Num.isFinite (Num.of_Z n) = true /\
  (Num.to_Q (Num.of_Z n) == inject_Z n)%Q /\ nonneg (Num.of_Z n) = true.
Proof.
  intros Hn. rewrite of_Z_scaled by lia.
  pose proof (repr_int n Hn) as Hr.
  destruct (to_Q_of_scaled_int n ltac:(lia) Hr) as [Hq Hf].
  repeat split; auto using of_scaled_wf, of_scaled_nonneg.
Qed.

(** X15.  End to end, in exact arithmetic: for a customer on tier T with p
    points (an integer), a finite strictly positive amount A below 2^53
    and w = floor(floor(A / 10) * multiplier(T)) with p + w <= 2^53, the
    purchase replies with the award w, stores p + w points and the tier
    that the ordered promotion rules give for (T, p + w). *)
Theorem purchase_exact
    (now1 now2 : string) (customerId amount : Num.number)
    (cs : list Customer) (customer : Customer) (t : Tier) (p : Z) :
  find customerId cs = Some customer ->
  status customer = tier_name t ->
  points customer = Num.of_Z p -> 0 <= p ->
  Num.wf amount -> Num.isFinite amount = true ->
  Num.lt Num.pzero amount = true ->
  Num.lt amount (Num.of_Z (2 ^ 53)) = true ->
  let w := calculatePoints t (Num.to_Q amount) in
  p + w <= 2 ^ 53 ->
  exists c' m,
    fst (purchase now1 now2 customerId amount cs) = Ok c' (Num.of_Z w) m /\
    points c' = Num.of_Z (p + w) /\
    status c' = tier_name (fst (evaluatePromotion t (p + w))) /\
    find customerId (snd (purchase now1 now2 customerId amount cs))
    = Some c'.
Proof.
  intros Hfind Hs Hp Hp0 Hw Hf Hpos Hlt w Hsum.
  destruct (calc_tier_exact t amount Hw Hf Hpos Hlt) as [Hc Hwb].
  fold w in Hc, Hwb.
  assert (Hvalid : invalid_amount amount = false).
  { destruct (positive_finite amount Hf Hpos) as [_ (m & e & ->)].
    reflexivity. }
  rewrite purchase_store, Hvalid.
  rewrite (modify_find_same _ _ _ _ (purchase_update_id now1 now2 amount)
             Hfind).
  rewrite purchase_eq, Hfind, Hvalid. cbv zeta.
  fold (purchase_update now1 now2 amount customer).
  assert (Hu : purchase_update now1 now2 amount customer
               = applyStatusUpgrade now2
                   (set_lastPurchaseDate
                      (set_points customer (Num.of_Z (p + w))) now1)).
  { unfold purchase_update. rewrite Hs, Hc, Hp, add_int by lia.
    reflexivity. }
  destruct (of_Z_int (p + w) ltac:(lia)) as (W1 & W2 & W3 & _).
  assert (Hr : applyStatusUpgrade now2
                 (set_lastPurchaseDate
                    (set_points customer (Num.of_Z (p + w))) now1)
               = match upgrade_status (1000 <=? p + w)%Z (750 <=? p + w)%Z
                         (500 <=? p + w)%Z (tier_name t) with
                 | Some s' =>
                     set_lastStatusChange
                       (set_status
                          (set_lastPurchaseDate
                             (set_points customer (Num.of_Z (p + w))) now1)
                          s') now2
                 | None =>
                     set_lastPurchaseDate
                       (set_points customer (Num.of_Z (p + w))) now1
                 end).
  { apply applyStatusUpgrade_int; cbn [status points set_points
                                         set_lastPurchaseDate]; auto; lia. }
  rewrite Hs, Hc. eexists _, _. split; [reflexivity|].
  rewrite Hu, Hr, upgrade_status_evaluate.
  destruct (snd (evaluatePromotion t (p + w))) eqn:E.
  - repeat split.
  - repeat split. cbn [status set_points set_lastPurchaseDate].
    rewrite Hs. f_equal.
    unfold evaluatePromotion in *.
    destruct ((1000 <=? p + w)%Z && _); [discriminate E|].
    destruct ((750 <=? p + w)%Z && _); [discriminate E|].
    destruct ((500 <=? p + w)%Z && _); [discriminate E|]. reflexivity.
Qed.

Lemma purchase_exact_witness :
  exists c' m,
    fst (purchase "a" "b" (Num.of_Z 1) (Num.of_Z 700) customers)
    = Ok c' (Num.of_Z (calculatePoints SILVER
                         (Num.to_Q (Num.of_Z 700)))) m /\
    points c'
    = Num.of_Z (450 + calculatePoints SILVER (Num.to_Q (Num.of_Z 700))) /\
    status c'
    = tier_name
        (fst (evaluatePromotion SILVER
                (450 + calculatePoints SILVER (Num.to_Q (Num.of_Z 700))))) /\
    find (Num.of_Z 1)
      (snd (purchase "a" "b" (Num.of_Z 1) (Num.of_Z 700) customers))
    = Some c'.
Proof.
  apply (purchase_exact "a" "b" (Num.of_Z 1) (Num.of_Z 700) customers
           (mkCustomer (Num.of_Z 1) "John Smith" "SILVER" (Num.of_Z 450)
              "2024-02-15" None (Some "Downtown") "2023-06-15" true None)
           SILVER 450);
    try reflexivity; try lia.
  vm_compute. discriminate.
Defined.

Lemma add_ge_zero_sign x y :
  Num.wf x -> Num.wf y -> Num.isFinite x = true ->
  Num.le Num.pzero x = true -> nonneg y = true ->
  Num.le x (Num.add x y) = true.
Proof.
  intros Hx Hy Hf Hle Ny.
  destruct x as [[]|sx| |[] mx ex]; try discriminate.
  - destruct y as [[]|sy| |[] my ey]; try discriminate; reflexivity.
  - apply add_ge; auto.
  - apply add_ge; auto.
Qed.

(** X16.  A successful purchase never lowers the points: for a customer on
    a recognised tier whose points are a finite non-negative number, the
    points stored after the purchase are at least the points before. *)
Theorem purchase_points_never_decrease
    (now1 now2 : string) (customerId amount : Num.number)
    (cs : list Customer) (customer : Customer) (t : Tier) :
  find customerId cs = Some customer ->
  status customer = tier_name t ->
  Num.wf (points customer) -> Num.isFinite (points customer) = true ->
  Num.le Num.pzero (points customer) = true ->
  Num.wf amount -> invalid_amount amount = false ->
  exists c' a m,
    fst (purchase now1 now2 customerId amount cs) = Ok c' a m /\
    Num.le (points customer) (points c') = true.
Proof.
  intros Hfind Hs Hwp Hfp Hlep Hw Hvalid.
  destruct (invalid_amount_false amount Hvalid) as (Hf & Hpos & Hn).
  destruct (calc_award t amount Hw Hn) as [Hc Hr].
  rewrite purchase_eq, Hfind, Hvalid. cbv zeta.
  eexists _, _, _. split; [reflexivity|].
  rewrite applyStatusUpgrade_eq.
  assert (Hadd : Num.le (points customer)
                   (Num.add (points customer)
                      (calcPointsWithStatus (status customer) amount))
                 = true).
  { rewrite Hs, Hc. apply add_ge_zero_sign;
      auto using of_scaled_wf, of_scaled_nonneg. }
  destruct (upgrade_status _ _ _ _); exact Hadd.
Qed.

Lemma purchase_points_never_decrease_witness :
  exists c' a m,
    fst (purchase "a" "b" (Num.of_Z 2) (Num.of_Z 77) customers) = Ok c' a m /\
    Num.le (Num.of_Z 850) (points c') = true.
Proof.
  apply (purchase_points_never_decrease "a" "b" (Num.of_Z 2) (Num.of_Z 77)
           customers
           (mkCustomer (Num.of_Z 2) "Jane Doe" "GOLD" (Num.of_Z 850)
              "2024-03-01" (Some "jane.doe@email.com") None "2023-01-20"
              false None) GOLD);
    reflexivity.
Defined.

(** X17.  A purchase never demotes: for a customer on a recognised tier, a
    successful purchase stores a recognised tier that is at least the tier
    before the purchase. *)
Theorem purchase_never_demotes
    (now1 now2 : string) (customerId amount : Num.number)
    (cs : list Customer) (customer : Customer) (t : Tier) :
  find customerId cs = Some customer ->
  status customer = tier_name t ->
  invalid_amount amount = false ->
  exists c' a m t',
    fst (purchase now1 now2 customerId amount cs) = Ok c' a m /\
    status c' = tier_name t' /\ (tier_rank t <= tier_rank t')%nat.
Proof.
  intros Hfind Hs Hvalid.
  rewrite purchase_eq, Hfind, Hvalid. cbv zeta.
  rewrite applyStatusUpgrade_eq.
  cbn [status points set_points set_lastPurchaseDate]. rewrite Hs.
  destruct (upgrade_status _ _ _ (tier_name t)) as [s'|] eqn:E.
  - destruct (upgrade_status_tier _ _ _ _ _ E) as (t' & -> & Hlt).
    eexists _, _, _, t'. split; [reflexivity|]. split; [reflexivity | lia].
  - eexists _, _, _, t. split; [reflexivity|]. split; [exact Hs | lia].
Qed.

Lemma purchase_never_demotes_witness :
  exists c' a m t',
    fst (purchase "a" "b" (Num.of_Z 2) (Num.of_Z 77) customers) = Ok c' a m /\
    status c' = tier_name t' /\ (tier_rank GOLD <= tier_rank t')%nat.
Proof.
  apply (purchase_never_demotes "a" "b" (Num.of_Z 2) (Num.of_Z 77)
           customers
           (mkCustomer (Num.of_Z 2) "Jane Doe" "GOLD" (Num.of_Z 850)
              "2024-03-01" (Some "jane.doe@email.com") None "2023-01-20"
              false None) GOLD);
    reflexivity.
Defined.

(** X18.  The multiplier in the reply is read after the upgrade: when a
    purchase takes the points of a customer on any recognised tier to 1000
    or more, the reply reports the PLATINUM multiplier 2, although the
    award in the same reply was computed with the multiplier of the tier
    the customer had before the purchase. *)
Theorem purchase_reports_multiplier_after_upgrade
    (now1 now2 : string) (customerId amount : Num.number)
    (cs : list Customer) (customer : Customer) (t : Tier) :
  find customerId cs = Some customer ->
  status customer = tier_name t ->
  invalid_amount amount = false ->
  Num.ge (Num.add (points customer)
            (calcPointsWithStatus (tier_name t) amount))
         (Num.of_Z 1000) = true ->
  exists c',
    fst (purchase now1 now2 customerId amount cs)
    = Ok c' (calcPointsWithStatus (tier_name t) amount)
         (VNumber (Num.of_Z 2)) /\
    status c' = "PLATINUM".
Proof.
  intros Hfind Hs Hvalid Hge.
  rewrite purchase_eq, Hfind, Hvalid. cbv zeta.
  rewrite applyStatusUpgrade_eq.
  cbn [status points set_points set_lastPurchaseDate].
  rewrite Hs, Hge.
  destruct t; cbn; rewrite ?andb_false_r; cbn; rewrite ?Hs; eexists; split;
    try reflexivity; exact Hs.
Qed.

Lemma purchase_reports_multiplier_after_upgrade_witness :
  exists c',
    fst (purchase "a" "b" (Num.of_Z 2) (Num.of_Z 1500) customers)
    = Ok c' (calcPointsWithStatus (tier_name GOLD) (Num.of_Z 1500))
         (VNumber (Num.of_Z 2)) /\
    status c' = "PLATINUM".
Proof.
  apply (purchase_reports_multiplier_after_upgrade "a" "b" (Num.of_Z 2)
           (Num.of_Z 1500) customers
           (mkCustomer (Num.of_Z 2) "Jane Doe" "GOLD" (Num.of_Z 850)
              "2024-03-01" (Some "jane.doe@email.com") None "2023-01-20"
              false None) GOLD);
    reflexivity.
Defined.

(** ** The preferences handler *)

Lemma apply_preferences_loyalty body c :
  loyalty_fields (apply_preferences body c) = loyalty_fields c.
Proof.
  unfold apply_preferences.
  destruct (get_field body "notifications") as [[]|];
    destruct (get_field body "preferredStore") as [[]|];
    destruct (get_field body "email") as [[]|]; reflexivity.
Qed.

(** X19.  The preferences handler never touches the loyalty data: id,
    name, status, points, lastPurchaseDate, joinDate and lastStatusChange
    of every stored customer are the same after the request, whatever the
    body. *)
Theorem patch_preserves_loyalty_fields
    (customerId : Num.number) (body : list (string * json))
    (cs : list Customer) :
  map loyalty_fields (snd (patch_preferences customerId body cs))
  = map loyalty_fields cs.
Proof.
  rewrite patch_store. apply modify_map. apply apply_preferences_loyalty.
Qed.

Lemma apply_preferences_noop body c :
  (forall b, get_field body "notifications" <> Some (JBool b)) ->
  (forall s, get_field body "preferredStore" <> Some (JString s)) ->
  (forall s, get_field body "email" <> Some (JString s)) ->
  apply_preferences body c = c.
Proof.
  intros H1 H2 H3. unfold apply_preferences.
  destruct (get_field body "notifications") as [[]|];
    try (exfalso; eapply H1; reflexivity);
    destruct (get_field body "preferredStore") as [[]|];
    try (exfalso; eapply H2; reflexivity);
    destruct (get_field body "email") as [[]|];
    try (exfalso; eapply H3; reflexivity); reflexivity.
Qed.

(** X20.  A body in which notifications is not a boolean, preferredStore
    is not a string and email is not a string (an empty object, or values
    of other types) changes nothing: the store is left as it was and the
    reply is what GET would give. *)
Theorem patch_ill_typed_body_is_noop
    (customerId : Num.number) (body : list (string * json))
    (cs : list Customer) :
  (forall b, get_field body "notifications" <> Some (JBool b)) ->
  (forall s, get_field body "preferredStore" <> Some (JString s)) ->
  (forall s, get_field body "email" <> Some (JString s)) ->
  patch_preferences customerId body cs = (get_customer customerId cs, cs).
Proof.
  intros H1 H2 H3.
  assert (Hs : snd (patch_preferences customerId body cs) = cs).
  { rewrite patch_store.
    rewrite (modify_ext _ _ (fun c => c)).
    - apply modify_id.
    - intros c. apply apply_preferences_noop; auto. }
  unfold patch_preferences, get_customer in *.
  destruct (find customerId cs) as [c|]; [|reflexivity].
  cbn [snd] in Hs. rewrite Hs.
  rewrite apply_preferences_noop by auto. reflexivity.
Qed.

Lemma patch_ill_typed_body_is_noop_witness :
  patch_preferences (Num.of_Z 1)
    [("notifications", JString "yes"); ("email", JNull)] customers
  = (get_customer (Num.of_Z 1) customers, customers).
Proof.
  apply (patch_ill_typed_body_is_noop (Num.of_Z 1)
           [("notifications", JString "yes"); ("email", JNull)] customers);
    intros x; discriminate.
Defined.

(** X21.  The preferences handler is idempotent: sending the same request
    again gives the same reply and the same store. *)
Theorem patch_idempotent
    (customerId : Num.number) (body : list (string * json))
    (cs : list Customer) :
  patch_preferences customerId body
    (snd (patch_preferences customerId body cs))
  = patch_preferences customerId body cs.
Proof.
  assert (Hs : snd (patch_preferences customerId body
                      (snd (patch_preferences customerId body cs)))
               = snd (patch_preferences customerId body cs)).
  { rewrite !patch_store.
    rewrite modify_modify by apply apply_preferences_id.
    apply modify_ext. intros c. apply apply_preferences_twice. }
  rewrite (patch_store customerId body cs) in *.
  destruct (find customerId cs) as [c|] eqn:Hfind.
  - pose proof (modify_find_same _ _ _ _ (apply_preferences_id body) Hfind)
      as Hfind'.
    unfold patch_preferences in *. rewrite Hfind' in *. rewrite Hfind.
    cbn [snd] in Hs. rewrite Hs, apply_preferences_twice.
    rewrite <- (find_modify customerId (apply_preferences body) cs), Hfind.
    reflexivity.
  - assert (Hm : modify customerId (apply_preferences body) cs = cs).
    { rewrite <- find_modify, Hfind. reflexivity. }
    rewrite Hm. reflexivity.
Qed.

(** X22.  After a preferences update that finds the customer, GET with
    the same id returns the customer of the reply. *)
Theorem patch_then_get
    (customerId : Num.number) (body : list (string * json))
    (cs : list Customer) (customer : Customer) :
  find customerId cs = Some customer ->
  fst (patch_preferences customerId body cs)
  = Some (apply_preferences body customer) /\
  get_customer customerId (snd (patch_preferences customerId body cs))
  = fst (patch_preferences customerId body cs).
Proof.
  intros Hfind. unfold get_customer. rewrite patch_store.
  rewrite (modify_find_same _ _ _ _ (apply_preferences_id body) Hfind).
  unfold patch_preferences. rewrite Hfind. split; reflexivity.
Qed.

Lemma patch_then_get_witness :
  get_customer (Num.of_Z 1)
    (snd (patch_preferences (Num.of_Z 1) [("email", JString "j@x.org")]
            customers))
  = fst (patch_preferences (Num.of_Z 1) [("email", JString "j@x.org")]
           customers).
Proof.
  apply (patch_then_get (Num.of_Z 1) [("email", JString "j@x.org")]
           customers
           (mkCustomer (Num.of_Z 1) "John Smith" "SILVER" (Num.of_Z 450)
              "2024-02-15" None (Some "Downtown") "2023-06-15" true None)).
  reflexivity.
Defined.

Lemma modify_Forall2 (R : Customer -> Customer -> Prop) i f cs :
  (forall c, R c c) -> (forall c, R c (f c)) ->
  Forall2 R cs (modify i f cs).
Proof.
  intros Hrefl Hf.
  assert (Hall : forall l, Forall2 R l l).
  { induction l; constructor; auto. }
  induction cs as [|c cs IH]; cbn [modify]; [constructor|].
  destruct (Num.strict_eq (id c) i); constructor; auto.
Qed.

(** X23.  The preferences handler cannot clear a preference: a customer
    that has an email, or a preferred store, before the request still has
    one after it, whatever the body. *)
Theorem patch_never_unsets
    (customerId : Num.number) (body : list (string * json))
    (cs : list Customer) :
  Forall2
    (fun c c' =>
       (email c <> None -> email c' <> None) /\
       (preferredStore c <> None -> preferredStore c' <> None))
    cs (snd (patch_preferences customerId body cs)).
Proof.
  rewrite patch_store. apply modify_Forall2.
  - intros c. split; auto.
  - intros c. unfold apply_preferences.
    destruct (get_field body "notifications") as [[]|];
      destruct (get_field body "preferredStore") as [[]|];
      destruct (get_field body "email") as [[]|];
      cbn [email preferredStore set_notifications set_preferredStore
             set_email]; split; auto; discriminate.
Qed.

(** X24.  A purchase and a preferences update commute: whichever of the
    two requests is served first, for the same customer or for two
    different ones, the store after both is the same. *)
Theorem purchase_patch_commute
    (now1 now2 : string) (id1 amount id2 : Num.number)
    (body : list (string * json)) (cs : list Customer) :
  snd (patch_preferences id2 body (snd (purchase now1 now2 id1 amount cs)))
  = snd (purchase now1 now2 id1 amount
           (snd (patch_preferences id2 body cs))).
Proof.
  rewrite !patch_store, !purchase_store.
  destruct (invalid_amount amount); [reflexivity|].
  symmetry. apply modify_commute.
  - apply purchase_update_id.
  - apply apply_preferences_id.
  - apply purchase_update_preferences.
Qed.
